(** * honeybee/properties.py: the extension-properties protocol

    A shallow embedding of [_Properties] and of its six host variants
    ([ModelProperties], [RoomProperties], [FaceProperties],
    [ShadeProperties], [ApertureProperties], [DoorProperties]).

    The Python object model is written out as far as the code relies on it:
    - a properties object has an instance dictionary ([p_slots]) and a class;
      the class holds the members defined in properties.py (fixed by the
      variant) and the members that extension packages install on it
      ([p_members]): accessors, i.e. properties whose getter returns an
      underscore slot, or plain class attributes;
    - [dir], [getattr], [setattr] and [hasattr] follow Python's lookup order
      (data descriptors, instance dictionary, other class members);
    - extension attribute objects live in a heap ([w_exts]) and are reached
      through references, so in-place operations are seen through every
      reference; their classes are given by a table of capability records;
    - exceptions are values threaded through a state-and-error monad; every
      capability invocation is recorded in a log ([w_log]).

    Modelling boundary: members defined in properties.py are not replaced by
    extension packages (class lookup consults them first), a capability works
    on its receiver's own state, and [traceback.print_exc()] is not
    modelled.  The operations enumerate with the tuple [_do_not_duplicate]
    that properties.py defines; the code reads it as
    [self._do_not_duplicate], and [extension_attr_lookup] follows that
    lookup: the two agree as long as no attribute of the instance stands in
    front of the tuple ([reserved_as_defined]), which an extension attached
    under the name [do_not_duplicate] brings about.  The [apply_properties_from_dict] of an extension, which
    [ModelProperties.apply_properties_from_dict] hands the whole model
    dictionary, is given the heap to work on and is not logged. *)

From stdpp Require Import base strings list gmap sorting.
From Stdlib Require Import ZArith.

Set Warnings "-register-all,-clear-no-such-hyp".

(** ** Python values *)

(** Addresses of objects and identifiers of extension classes are numbers. *)
Abbreviation addr := nat.
Abbreviation cid := nat.

(** Exception classes.  [KeyboardInterrupt] stands for the classes that
    derive from [BaseException] only, which [except Exception] lets through. *)
Inductive exn_class :=
  | Exception | KeyError | TypeError | AttributeError | ValueError
  | AssertionError | KeyboardInterrupt.

(** An exception: its class and [str(e)]. *)
Record exn := Exn { exn_cls : exn_class; exn_str : string }.

Definition is_Exception (c : exn_class) : bool :=
  match c with KeyboardInterrupt => false | _ => true end.

Definition is_KeyError (c : exn_class) : bool :=
  match c with KeyError => true | _ => false end.

Inductive outcome (A : Type) :=
  | Ok (a : A)
  | Raise (e : exn).
Arguments Ok {A} a.
Arguments Raise {A} e.

(** Plain data: what dictionaries produced by [to_dict] and consumed by
    [from_dict] are made of. *)
Inductive data :=
  | DNone
  | DBool (b : bool)
  | DInt (z : Z)
  | DStr (s : string)
  | DList (l : list data)
  | DDict (d : gmap string data).

Abbreviation dict := (gmap string data).

(** What an attribute of a properties object can hold. *)
Inductive value :=
  | VData (d : data)          (* None, numbers, strings, lists, dicts *)
  | VRef (a : addr)           (* reference to an object of the heap *)
  | VMethod (name : string).  (* bound method of the properties object *)

(** [d[key]], for a key that is a string.  The messages are those of
    CPython 3.11. *)
Definition subscript (d : data) (key : string) : outcome data :=
  match d with
  | DDict m =>
      match m !! key with
      | Some x => Ok x
      | None => Raise (Exn KeyError ("'" +:+ key +:+ "'"))
      end
  | DList _ =>
      Raise (Exn TypeError "list indices must be integers or slices, not str")
  | DStr _ => Raise (Exn TypeError "string indices must be integers, not 'str'")
  | DNone => Raise (Exn TypeError "'NoneType' object is not subscriptable")
  | DBool _ => Raise (Exn TypeError "'bool' object is not subscriptable")
  | DInt _ => Raise (Exn TypeError "'int' object is not subscriptable")
  end.

(** [base.update(d)]: keys of [d] win. *)
Definition update (base d : dict) : dict := d ∪ base.

(** ** Extension attribute objects *)

Record ext := Ext { e_class : cid; e_state : data }.

(** The capabilities a class of extension attributes may define; each one is
    optional.  [c_to_dict] receives [Some abridged], or [None] when it is
    called without argument. *)
Record ext_class := ExtClass {
  c_str : data → string;
  c_duplicate : option (data → value → outcome ext);
  c_add_prefix : option (data → string → outcome data);
  c_reset_to_default : option (data → outcome data);
  c_to_dict : option (data → option bool → outcome dict);
  c_from_dict : option (data → value → outcome ext)
}.

Definition class_has (c : ext_class) (name : string) : bool :=
  match name with
  | "duplicate" => bool_decide (is_Some (c_duplicate c))
  | "add_prefix" => bool_decide (is_Some (c_add_prefix c))
  | "reset_to_default" => bool_decide (is_Some (c_reset_to_default c))
  | "to_dict" => bool_decide (is_Some (c_to_dict c))
  | "from_dict" => bool_decide (is_Some (c_from_dict c))
  | _ => false
  end.

(** ** Properties objects *)

Inductive variant := Model | Room | Face | Shade | Aperture | Door.

(** Members installed on the class by extension packages. *)
Inductive member :=
  | MAccessor (slot : string)   (* property: the getter returns self.<slot> *)
  | MMethod                     (* function, read as a bound method *)
  | MAttr (v : value).          (* plain class attribute *)

Record props := Props {
  p_variant : variant;
  p_members : gmap string member;
  p_slots : gmap string value
}.

Definition class_name (v : variant) : string :=
  match v with
  | Model => "ModelProperties"
  | Room => "RoomProperties"
  | Face => "FaceProperties"
  | Shade => "ShadeProperties"
  | Aperture => "ApertureProperties"
  | Door => "DoorProperties"
  end.

(** class attribute of [_Properties] *)
Definition _do_not_duplicate : list string := ["host"; "to_dict"; "ToString"].

(** Methods defined in properties.py, by class. *)
Definition base_methods : list string :=
  ["__init__"; "_duplicate_extension_attr"; "_add_prefix_extension_attr";
   "_reset_extension_attr_to_default"; "_add_extension_attr_to_dict";
   "_load_extension_attr_from_dict"; "ToString"; "__repr__"].

Definition variant_methods (v : variant) : list string :=
  match v with
  | Model => ["to_dict"; "apply_properties_from_dict"; "__repr__"]
  | _ => ["to_dict"; "add_prefix"; "reset_to_default"; "__repr__"]
  end.

Definition core_methods (v : variant) : list string :=
  variant_methods v ++ base_methods.

(** Every name the class defines in properties.py.  The names inherited from
    [object] all start with two underscores and are left out: every
    enumeration below drops them. *)
Definition core_names (v : variant) : list string :=
  "host" :: "_do_not_duplicate" :: core_methods v.

(** ** The world: properties objects, heap, log *)

Inductive event :=
  | EDuplicate (a : addr) (host : value)
  | EAddPrefix (a : addr) (prefix : string)
  | EResetToDefault (a : addr)
  | EToDict (a : addr) (abridged : option bool)
  | EFromDict (c : cid) (d : data) (host : value).

Record world := World {
  w_props : addr → props;
  w_exts : list ext;
  w_log : list event
}.

Definition M (A : Type) : Type := world → outcome A * world.

Definition ret {A} (a : A) : M A := λ w, (Ok a, w).

Definition raise {A} (e : exn) : M A := λ w, (Raise e, w).

Definition bind {A B} (m : M A) (k : A → M B) : M B :=
  λ w, match m w with
       | (Ok a, w') => k a w'
       | (Raise e, w') => (Raise e, w')
       end.

Notation "'let*' x ':=' m 'in' k" := (bind m (λ x, k))
  (at level 10, x binder, m at level 100, k at level 200, only parsing).
Notation "'let*' ' p ':=' m 'in' k" :=
  (bind m (λ x, match x with p => k end))
  (at level 10, p pattern, m at level 100, k at level 200, only parsing).

(** [try: body  except <classes>: handler] *)
Definition try_except {A} (body : M A) (catches : exn_class → bool)
    (handler : exn → M A) : M A :=
  λ w, match body w with
       | (Raise e, w') =>
           if catches (exn_cls e) then handler e w' else (Raise e, w')
       | r => r
       end.

(** [for x in l: body x] *)
Fixpoint for_each {A} (l : list A) (body : A → M unit) : M unit :=
  match l with
  | [] => ret tt
  | x :: l' => let* _ := body x in for_each l' body
  end.

(** A loop whose body updates a local variable. *)
Fixpoint for_each_acc {A B} (l : list A) (acc : B) (body : A → B → M B) : M B :=
  match l with
  | [] => ret acc
  | x :: l' => let* acc' := body x acc in for_each_acc l' acc' body
  end.

Definition lift {A} (o : outcome A) : M A := λ w, (o, w).

Definition read {A} (f : world → A) : M A := λ w, (Ok (f w), w).

Definition log (e : event) : M unit :=
  λ w, (Ok tt, World (w_props w) (w_exts w) (w_log w ++ [e])).

(** ** Attribute access *)

Definition no_attribute (p : props) (name : string) : exn :=
  Exn AttributeError
    ("'" +:+ class_name (p_variant p) +:+ "' object has no attribute '"
         +:+ name +:+ "'").

(** The class dictionary: what properties.py defines, then what extension
    packages installed. *)
Definition class_lookup (p : props) (name : string) : option member :=
  if bool_decide (name = "host") then Some (MAccessor "_host")
  else if bool_decide (name ∈ core_methods (p_variant p)) then Some MMethod
  else if bool_decide (name = "_do_not_duplicate")
  then Some (MAttr (VData (DList (DStr <$> _do_not_duplicate))))
  else p_members p !! name.

(** Lookup that calls no getter: the instance dictionary, then the methods
    and plain attributes of the class. *)
Definition lookup_plain (p : props) (name : string) : outcome value :=
  match p_slots p !! name with
  | Some v => Ok v
  | None =>
      match class_lookup p name with
      | Some MMethod => Ok (VMethod name)
      | Some (MAttr v) => Ok v
      | _ => Raise (no_attribute p name)
      end
  end.

(** [getattr(obj, name)]: a property of the class comes before the instance
    dictionary. *)
Definition getattr_props (p : props) (name : string) : outcome value :=
  match class_lookup p name with
  | Some (MAccessor slot) => lookup_plain p slot
  | _ => lookup_plain p name
  end.

Definition getattr (o : addr) (name : string) : M value :=
  λ w, (getattr_props (w_props w o) name, w).

(** [setattr(obj, name, v)]: a property without setter refuses, anything
    else goes to the instance dictionary. *)
Definition setattr_props (p : props) (name : string) (v : value) : outcome props :=
  match class_lookup p name with
  | Some (MAccessor _) => Raise (Exn AttributeError "can't set attribute")
  | _ => Ok (Props (p_variant p) (p_members p) (<[name := v]> (p_slots p)))
  end.

Definition setattr (o : addr) (name : string) (v : value) : M unit :=
  λ w, match setattr_props (w_props w o) name v with
       | Ok p' =>
           (Ok tt,
            World (λ a, if bool_decide (a = o) then p' else w_props w a)
                  (w_exts w) (w_log w))
       | Raise e => (Raise e, w)
       end.

(** [dir(obj)]: the names of the instance dictionary and of the class,
    sorted. *)
Definition str_le (a b : string) : Prop := String.leb a b = true.

Global Instance str_le_dec a b : Decision (str_le a b).
Proof. unfold str_le. apply _. Defined.

Definition dir_props (p : props) : list string :=
  merge_sort str_le
    (elements (list_to_set (core_names (p_variant p))
               ∪ dom (p_members p) ∪ dom (p_slots p) : gset string)).

(** [atr.startswith('_')] *)
Definition startswith_underscore (atr : string) : bool := String.prefix "_" atr.

(** [[atr for atr in dir(self)
      if not atr.startswith('_') and atr not in self._do_not_duplicate]] *)
Definition extension_attr_props (p : props) : list string :=
  filter (λ atr, negb (startswith_underscore atr)
                 && negb (bool_decide (atr ∈ _do_not_duplicate)))
         (dir_props p).

Definition extension_attr (self : addr) : M (list string) :=
  read (λ w, extension_attr_props (w_props w self)).

(** The comprehension of [ModelProperties.to_dict]:
    [[atr for atr in dir(self) if not atr.startswith('_') and atr != 'host']] *)
Definition model_to_dict_attr_props (p : props) : list string :=
  filter (λ atr, negb (startswith_underscore atr)
                 && negb (bool_decide (atr = "host")))
         (dir_props p).

Definition model_to_dict_attr (self : addr) : M (list string) :=
  read (λ w, model_to_dict_attr_props (w_props w self)).

(** ** The aggregator: the operations of [_Properties] *)

Section Aggregator.

(** The classes of the extension attribute objects. *)
Variable classes : cid → ext_class.

Definition class_of (w : world) (var : value) : option ext_class :=
  match var with
  | VRef a => (λ o, classes (e_class o)) <$> w_exts w !! a
  | _ => None
  end.

(** [hasattr(var, name)], for the capability names the code probes.  Plain
    data and bound methods have none of them. *)
Definition hasattr_in (w : world) (var : value) (name : string) : bool :=
  match class_of w var with
  | Some c => class_has c name
  | None => false
  end.

Definition hasattr (var : value) (name : string) : M bool :=
  read (λ w, hasattr_in w var name).

(** ['{}'.format(var)] *)
Definition str_in (w : world) (var : value) : string :=
  match var with
  | VRef a =>
      match w_exts w !! a with
      | Some o => c_str (classes (e_class o)) (e_state o)
      | None => "<object>"
      end
  | VData _ => "<data>"
  | VMethod name => "<bound method " +:+ name +:+ ">"
  end.

Definition str (var : value) : M string := read (λ w, str_in w var).

Definition no_such_method (name : string) : exn :=
  Exn AttributeError ("object has no attribute '" +:+ name +:+ "'").

Definition receiver (var : value) (name : string) : M (addr * ext) :=
  λ w, match var with
       | VRef a =>
           match w_exts w !! a with
           | Some o => (Ok (a, o), w)
           | None => (Raise (no_such_method name), w)
           end
       | _ => (Raise (no_such_method name), w)
       end.

(** A new object enters the heap. *)
Definition alloc (o : ext) : M value :=
  λ w, (Ok (VRef (length (w_exts w))),
        World (w_props w) (w_exts w ++ [o]) (w_log w)).

(** An object of the heap changes state in place. *)
Definition store (a : addr) (o : ext) : M unit :=
  λ w, (Ok tt, World (w_props w) (<[a := o]> (w_exts w)) (w_log w)).

(** [var.duplicate(host)] *)
Definition call_duplicate (var host : value) : M value :=
  let* '(a, o) := receiver var "duplicate" in
  match c_duplicate (classes (e_class o)) with
  | None => raise (no_such_method "duplicate")
  | Some f =>
      let* _ := log (EDuplicate a host) in
      let* o' := lift (f (e_state o) host) in
      alloc o'
  end.

(** [var.add_prefix(prefix)] *)
Definition call_add_prefix (var : value) (prefix : string) : M unit :=
  let* '(a, o) := receiver var "add_prefix" in
  match c_add_prefix (classes (e_class o)) with
  | None => raise (no_such_method "add_prefix")
  | Some f =>
      let* _ := log (EAddPrefix a prefix) in
      let* s := lift (f (e_state o) prefix) in
      store a (Ext (e_class o) s)
  end.

(** [var.reset_to_default()] *)
Definition call_reset_to_default (var : value) : M unit :=
  let* '(a, o) := receiver var "reset_to_default" in
  match c_reset_to_default (classes (e_class o)) with
  | None => raise (no_such_method "reset_to_default")
  | Some f =>
      let* _ := log (EResetToDefault a) in
      let* s := lift (f (e_state o)) in
      store a (Ext (e_class o) s)
  end.

(** [var.to_dict(abridged)], and [var.to_dict()] when [abridged] is [None] *)
Definition call_to_dict (var : value) (abridged : option bool) : M dict :=
  let* '(a, o) := receiver var "to_dict" in
  match c_to_dict (classes (e_class o)) with
  | None => raise (no_such_method "to_dict")
  | Some f =>
      let* _ := log (EToDict a abridged) in
      lift (f (e_state o) abridged)
  end.

(** [var.__class__.from_dict(d, host)] *)
Definition call_from_dict (var : value) (d : data) (host : value) : M value :=
  let* '(_, o) := receiver var "from_dict" in
  match c_from_dict (classes (e_class o)) with
  | None => raise (no_such_method "from_dict")
  | Some f =>
      let* _ := log (EFromDict (e_class o) d host) in
      let* o' := lift (f d host) in
      alloc o'
  end.

(** Each operation is a [for] loop over the enumerated names; the body of
    the loop comes first, then the operation. *)

Definition _duplicate_extension_attr_body (self original_properties : addr)
    (atr : string) : M unit :=
  let* var := getattr original_properties atr in
  let* has := hasattr var "duplicate" in
  if negb has then ret tt
  else
    try_except
      (let* host := getattr self "host" in
       let* dup := call_duplicate var host in
       setattr self ("_" +:+ atr) dup)
      is_Exception
      (λ e, let* s := str var in
            raise (Exn Exception
                     ("Failed to duplicate " +:+ s +:+ ": " +:+ exn_str e))).

Definition _duplicate_extension_attr (self original_properties : addr) : M unit :=
  let* attr := extension_attr self in
  for_each attr (_duplicate_extension_attr_body self original_properties).

Definition _add_prefix_extension_attr_body (self : addr) (prefix : string)
    (atr : string) : M unit :=
  let* var := getattr self atr in
  let* has := hasattr var "add_prefix" in
  if negb has then ret tt
  else
    try_except
      (call_add_prefix var prefix)
      is_Exception
      (λ e, let* s := str var in
            raise (Exn Exception
                     ("Failed to add prefix to " +:+ s +:+ ": " +:+ exn_str e))).

Definition _add_prefix_extension_attr (self : addr) (prefix : string) : M unit :=
  let* attr := extension_attr self in
  for_each attr (_add_prefix_extension_attr_body self prefix).

Definition _reset_extension_attr_to_default_body (self : addr) (atr : string)
    : M unit :=
  let* var := getattr self atr in
  let* has := hasattr var "reset_to_default" in
  if negb has then ret tt
  else
    try_except
      (call_reset_to_default var)
      is_Exception
      (λ e, let* s := str var in
            raise (Exn Exception
                     ("Failed to reset_to_default for " +:+ s +:+ ": "
                        +:+ exn_str e))).

Definition _reset_extension_attr_to_default (self : addr) : M unit :=
  let* attr := extension_attr self in
  for_each attr (_reset_extension_attr_to_default_body self).

(** The loop of [_add_extension_attr_to_dict] and of
    [ModelProperties.to_dict]: the two differ in what they hand to
    [to_dict], [Some abridged] for the first and nothing for the second. *)
Definition to_dict_body (self : addr) (abridged : option bool) (atr : string)
    (base : dict) : M dict :=
  let* var := getattr self atr in
  let* has := hasattr var "to_dict" in
  if negb has then ret base
  else
    try_except
      (let* d := call_to_dict var abridged in
       ret (update base d))
      is_Exception
      (λ e, let* s := str var in
            raise (Exn Exception
                     ("Failed to convert " +:+ s +:+ " to a dict: "
                        +:+ exn_str e))).

Definition to_dict_loop (self : addr) (attr : list string) (base : dict)
    (abridged : option bool) : M dict :=
  for_each_acc attr base (to_dict_body self abridged).

Definition _add_extension_attr_to_dict (self : addr) (base : dict)
    (abridged : bool) (include : option (list string)) : M dict :=
  let* attr :=
    match include with
    | Some names => ret names
    | None => extension_attr self
    end in
  to_dict_loop self attr base (Some abridged).

Definition _load_extension_attr_from_dict_body (self : addr)
    (property_dict : data) (atr : string) : M unit :=
  let* var := getattr self atr in
  let* has := hasattr var "from_dict" in
  if negb has then ret tt
  else
    try_except
      (let* sub := lift (subscript property_dict atr) in
       let* host := getattr self "host" in
       let* new := call_from_dict var sub host in
       setattr self ("_" +:+ atr) new)
      is_KeyError
      (λ _, ret tt).

Definition _load_extension_attr_from_dict (self : addr) (property_dict : data)
    : M unit :=
  let* attr := extension_attr self in
  for_each attr (_load_extension_attr_from_dict_body self property_dict).

(** ** The host variants *)

Definition ModelProperties_to_dict (self : addr) (include : option (list string))
    : M dict :=
  let base : dict := {[ "type" := DStr "ModelProperties" ]} in
  let* attr :=
    match include with
    | Some names => ret names
    | None => model_to_dict_attr self
    end in
  to_dict_loop self attr base None.

Definition RoomProperties_to_dict (self : addr) (abridged : bool)
    (include : option (list string)) : M dict :=
  let base : dict :=
    if negb abridged then {[ "type" := DStr "RoomProperties" ]}
    else {[ "type" := DStr "RoomPropertiesAbridged" ]} in
  _add_extension_attr_to_dict self base abridged include.

Definition FaceProperties_to_dict (self : addr) (abridged : bool)
    (include : option (list string)) : M dict :=
  let base : dict :=
    if negb abridged then {[ "type" := DStr "FaceProperties" ]}
    else {[ "type" := DStr "FacePropertiesAbridged" ]} in
  _add_extension_attr_to_dict self base abridged include.

Definition ShadeProperties_to_dict (self : addr) (abridged : bool)
    (include : option (list string)) : M dict :=
  let base : dict :=
    if negb abridged then {[ "type" := DStr "ShadeProperties" ]}
    else {[ "type" := DStr "ShadePropertiesAbridged" ]} in
  _add_extension_attr_to_dict self base abridged include.

Definition ApertureProperties_to_dict (self : addr) (abridged : bool)
    (include : option (list string)) : M dict :=
  let base : dict :=
    if negb abridged then {[ "type" := DStr "ApertureProperties" ]}
    else {[ "type" := DStr "AperturePropertiesAbridged" ]} in
  _add_extension_attr_to_dict self base abridged include.

Definition DoorProperties_to_dict (self : addr) (abridged : bool)
    (include : option (list string)) : M dict :=
  let base : dict :=
    if negb abridged then {[ "type" := DStr "DoorProperties" ]}
    else {[ "type" := DStr "DoorPropertiesAbridged" ]} in
  _add_extension_attr_to_dict self base abridged include.

(** [self.to_dict(..)], resolved by the class of [self].
    [ModelProperties.to_dict] has no [abridged] parameter. *)
Definition to_dict (v : variant) (self : addr) (abridged : bool)
    (include : option (list string)) : M dict :=
  match v with
  | Model => ModelProperties_to_dict self include
  | Room => RoomProperties_to_dict self abridged include
  | Face => FaceProperties_to_dict self abridged include
  | Shade => ShadeProperties_to_dict self abridged include
  | Aperture => ApertureProperties_to_dict self abridged include
  | Door => DoorProperties_to_dict self abridged include
  end.

(** [add_prefix] of the five variants that have it *)
Definition add_prefix (self : addr) (prefix : string) : M unit :=
  _add_prefix_extension_attr self prefix.

(** [reset_to_default] of the five variants that have it *)
Definition reset_to_default (self : addr) : M unit :=
  _reset_extension_attr_to_default self.

(** ** Views of a world, used to state the theorems *)

Definition add_log (w : world) (evs : list event) : world :=
  World (w_props w) (w_exts w) (w_log w ++ evs).

(** The names a serialization visits. *)
Definition selected (w : world) (self : addr) (include : option (list string))
    : list string :=
  match include with
  | Some names => names
  | None => extension_attr_props (w_props w self)
  end.

(** The receiver and the result of [var.to_dict(..)], when [var] has the
    capability. *)
Definition to_dict_of (w : world) (var : value) (abridged : option bool)
    : option (addr * outcome dict) :=
  match var with
  | VRef a =>
      match w_exts w !! a with
      | Some o =>
          match c_to_dict (classes (e_class o)) with
          | Some f => Some (a, f (e_state o) abridged)
          | None => None
          end
      | None => None
      end
  | _ => None
  end.

Definition failed_to_convert (w : world) (var : value) (e : exn) : exn :=
  Exn Exception
    ("Failed to convert " +:+ str_in w var +:+ " to a dict: " +:+ exn_str e).

(** The serialization loop as a function of the world it starts in: its
    outcome and the invocations it makes. *)
Fixpoint to_dict_trace (w : world) (self : addr) (attr : list string)
    (base : dict) (abridged : option bool) : outcome dict * list event :=
  match attr with
  | [] => (Ok base, [])
  | atr :: rest =>
      match getattr_props (w_props w self) atr with
      | Raise e => (Raise e, [])
      | Ok var =>
          match to_dict_of w var abridged with
          | None => to_dict_trace w self rest base abridged
          | Some (a, Ok d) =>
              let '(r, evs) :=
                to_dict_trace w self rest (update base d) abridged in
              (r, EToDict a abridged :: evs)
          | Some (a, Raise e) =>
              (Raise (if is_Exception (exn_cls e)
                      then failed_to_convert w var e else e),
               [EToDict a abridged])
          end
      end
  end.

(** The names [ModelProperties.to_dict] visits. *)
Definition model_selected (w : world) (self : addr)
    (include : option (list string)) : list string :=
  match include with
  | Some names => names
  | None => model_to_dict_attr_props (w_props w self)
  end.

(** What [to_dict v] starts from, visits and hands to the extensions. *)
Definition type_tag (v : variant) (abridged : bool) : string :=
  match v with
  | Model => "ModelProperties"
  | _ => if abridged then class_name v +:+ "Abridged" else class_name v
  end.

Definition to_dict_names (v : variant) (w : world) (self : addr)
    (include : option (list string)) : list string :=
  match v with
  | Model => model_selected w self include
  | _ => selected w self include
  end.

Definition to_dict_arg (v : variant) (abridged : bool) : option bool :=
  match v with
  | Model => None
  | _ => Some abridged
  end.

(** The dictionaries the visited extensions hand back, in order. *)
Definition outputs (w : world) (self : addr) (attr : list string)
    (abridged : option bool) : list dict :=
  omap (λ atr,
          match getattr_props (w_props w self) atr with
          | Ok var =>
              match to_dict_of w var abridged with
              | Some (_, Ok d) => Some d
              | _ => None
              end
          | Raise _ => None
          end) attr.

(** The receiver of [var.add_prefix(..)], with its state, and the function
    the class gives, when [var] has the capability. *)
Definition add_prefix_of (w : world) (var : value)
    : option (addr * ext * (data → string → outcome data)) :=
  match var with
  | VRef a =>
      match w_exts w !! a with
      | Some o =>
          match c_add_prefix (classes (e_class o)) with
          | Some f => Some (a, o, f)
          | None => None
          end
      | None => None
      end
  | _ => None
  end.

Definition failed_to_add_prefix (w : world) (var : value) (e : exn) : exn :=
  Exn Exception
    ("Failed to add prefix to " +:+ str_in w var +:+ ": " +:+ exn_str e).

(** The receiver of [var.duplicate(..)], with its state, and the function
    the class gives, when [var] has the capability. *)
Definition duplicate_of (w : world) (var : value)
    : option (addr * ext * (data → value → outcome ext)) :=
  match var with
  | VRef a =>
      match w_exts w !! a with
      | Some o =>
          match c_duplicate (classes (e_class o)) with
          | Some f => Some (a, o, f)
          | None => None
          end
      | None => None
      end
  | _ => None
  end.

(** The class of [var] and its [from_dict], when it has one. *)
Definition from_dict_of (w : world) (var : value)
    : option (cid * (data → value → outcome ext)) :=
  match var with
  | VRef a =>
      match w_exts w !! a with
      | Some o =>
          match c_from_dict (classes (e_class o)) with
          | Some f => Some (e_class o, f)
          | None => None
          end
      | None => None
      end
  | _ => None
  end.

Definition failed_to_duplicate (w : world) (var : value) (e : exn) : exn :=
  Exn Exception
    ("Failed to duplicate " +:+ str_in w var +:+ ": " +:+ exn_str e).

(** The world after one invocation that made the object [o']: the
    invocation is logged and the object is in the heap. *)
Definition made (w : world) (ev : event) (o' : ext) : world :=
  World (w_props w) (w_exts w ++ [o']) (w_log w ++ [ev]).

Definition with_props (w : world) (self : addr) (p : props) : world :=
  World (λ a, if bool_decide (a = self) then p else w_props w a)
        (w_exts w) (w_log w).

(** The invocations duplicate-all makes, read off the world it starts in. *)
Definition duplicate_events (w : world) (self original : addr)
    (attr : list string) : list event :=
  omap (λ atr,
          match getattr_props (w_props w original) atr with
          | Ok var =>
              match duplicate_of w var with
              | Some (a, _, _) =>
                  match getattr_props (w_props w self) "host" with
                  | Ok host => Some (EDuplicate a host)
                  | Raise _ => None
                  end
              | None => None
              end
          | Raise _ => None
          end) attr.



End Aggregator.

(** What duplicate-all and deserialize-all may do to a world: they touch the
    object [self] alone, and there only slots ["_" + atr], for [atr] among
    [names], which receive new objects of the heap; the heap and the log
    grow. *)
Definition installs (self : addr) (names : list string) (w w' : world) : Prop :=
  (∀ o, o ≠ self → w_props w' o = w_props w o)
  ∧ p_variant (w_props w' self) = p_variant (w_props w self)
  ∧ p_members (w_props w' self) = p_members (w_props w self)
  ∧ (∀ k, p_slots (w_props w' self) !! k = p_slots (w_props w self) !! k
          ∨ ∃ atr a, atr ∈ names ∧ k = "_" +:+ atr
              ∧ p_slots (w_props w' self) !! k = Some (VRef a)
              ∧ length (w_exts w) ≤ a < length (w_exts w'))
  ∧ (∃ news, w_exts w' = w_exts w ++ news)
  ∧ (∃ evs, w_log w' = w_log w ++ evs).

(** A reference is alive when it points into the heap. *)
Definition alive (w : world) (v : value) : bool :=
  match v with
  | VRef a => bool_decide (a < length (w_exts w))
  | _ => true
  end.

Definition member_alive (w : world) (m : member) : bool :=
  match m with
  | MAttr v => alive w v
  | _ => true
  end.

(** Every reference the object holds, in a slot or as a class attribute, is
    alive. *)
Definition refs_alive (w : world) (o : addr) : bool :=
  bool_decide (map_Forall (λ _ v, alive w v) (p_slots (w_props w o)))
  && bool_decide
       (map_Forall (λ _ m, member_alive w m) (p_members (w_props w o))).

(** Among dictionaries merged one after the other, the last one that has the
    key decides its value. *)
Definition last_value (ds : list dict) (k : string) : option data :=
  last (omap (λ d : dict, d !! k) ds).

(** [needle in hay], for strings *)
Fixpoint occurs (needle hay : string) : bool :=
  String.prefix needle hay ||
  match hay with
  | EmptyString => false
  | String _ rest => occurs needle rest
  end.

(** ** Concrete extension classes and worlds

    Used to run the operations on explicit inputs. *)

Module Examples.

(** An extension in the style of honeybee-energy: it serializes itself under
    its own key, and [from_dict] insists on a ["type"] entry. *)
Definition energy_state : data :=
  DDict {[ "type" := DStr "RoomEnergyProperties"; "hvac" := DStr "ideal_air" ]}.

Definition energy_class : ext_class :=
  {| c_str := λ _, "Room Energy Properties";
     c_duplicate := Some (λ s _, Ok (Ext 0 s));
     c_add_prefix :=
       Some (λ s prefix,
               match s with
               | DDict m =>
                   match m !! "hvac" with
                   | Some (DStr n) =>
                       Ok (DDict (<["hvac" := DStr (prefix +:+ n)]> m))
                   | _ => Ok s
                   end
               | _ => Ok s
               end);
     c_reset_to_default := Some (λ _, Ok energy_state);
     c_to_dict := Some (λ s _, Ok {[ "energy" := s ]});
     c_from_dict :=
       Some (λ d _,
               match subscript d "type" with
               | Ok _ => Ok (Ext 0 d)
               | Raise e => Raise e
               end) |}.

(** An extension whose [to_dict] raises. *)
Definition broken_class : ext_class :=
  {| c_str := λ _, "X";
     c_duplicate := None;
     c_add_prefix := None;
     c_reset_to_default := None;
     c_to_dict := Some (λ _ _, Raise (Exn ValueError "boom"));
     c_from_dict := None |}.

(** An extension whose [to_dict] output has a ["type"] key of its own. *)
Definition tagging_class : ext_class :=
  {| c_str := λ _, "Tagging";
     c_duplicate := None;
     c_add_prefix := None;
     c_reset_to_default := None;
     c_to_dict := Some (λ s _, Ok {[ "type" := s ]});
     c_from_dict := None |}.

(** An object without any of the capabilities, such as a host. *)
Definition opaque_class : ext_class :=
  {| c_str := λ _, "Room";
     c_duplicate := None;
     c_add_prefix := None;
     c_reset_to_default := None;
     c_to_dict := None;
     c_from_dict := None |}.

Definition classes (c : cid) : ext_class :=
  match c with
  | 0 => energy_class
  | 1 => broken_class
  | 2 => tagging_class
  | _ => opaque_class
  end.

(** The members honeybee-energy installs: the accessor [energy] over the
    slot [_energy], whose class-level default is [None]. *)
Definition energy_members : gmap string member :=
  {[ "energy" := MAccessor "_energy"; "_energy" := MAttr (VData DNone) ]}.

Definition heap : list ext :=
  [Ext 3 (DStr "Room A"); Ext 0 energy_state; Ext 3 (DStr "Room B");
   Ext 0 (DDict {[ "type" := DStr "RoomEnergyProperties" ]});
   Ext 1 DNone; Ext 2 (DStr "Hijacked")].

(** A room's properties with its energy extension (object 1). *)
Definition room_a : props :=
  Props Room energy_members {[ "_host" := VRef 0; "_energy" := VRef 1 ]}.

(** The properties of a fresh copy of the room: [_energy] is not set yet. *)
Definition room_b : props := Props Room energy_members {[ "_host" := VRef 2 ]}.

(** The properties of another room, with an energy extension of its own
    (object 3). *)
Definition room_c : props :=
  Props Room energy_members {[ "_host" := VRef 2; "_energy" := VRef 3 ]}.

(** Rooms whose [energy] is a plain attribute of the instance. *)
Definition plain_a : props :=
  Props Room ∅ {[ "_host" := VRef 0; "energy" := VRef 1 ]}.

Definition plain_b : props :=
  Props Room ∅ {[ "_host" := VRef 2; "energy" := VRef 3 ]}.

(** A room with a second extension, [radiance], whose [to_dict] raises. *)
Definition room_broken : props :=
  Props Room
    {[ "energy" := MAccessor "_energy"; "radiance" := MAccessor "_radiance" ]}
    {[ "_host" := VRef 0; "_energy" := VRef 1; "_radiance" := VRef 4 ]}.

(** A room with a second extension, [tagging], that emits ["type"]. *)
Definition room_tagging : props :=
  Props Room
    {[ "energy" := MAccessor "_energy"; "tagging" := MAccessor "_tagging" ]}
    {[ "_host" := VRef 0; "_energy" := VRef 1; "_tagging" := VRef 5 ]}.

(** A model's properties without any extension. *)
Definition model_bare : props := Props Model ∅ {[ "_host" := VRef 0 ]}.

(** A model with the extension that emits ["type"]. *)
Definition model_tagging : props :=
  Props Model {[ "tagging" := MAccessor "_tagging" ]}
    {[ "_host" := VRef 0; "_tagging" := VRef 5 ]}.

(** Object 0 of each world is the object operated on; object 1, where an
    operation takes a second object, is the other one. *)
Definition world_of (self other : props) : world :=
  World (λ a, match a with 0 => self | _ => other end) heap [].

End Examples.

Section ResetViews.
Variable classes : cid → ext_class.

(** The receiver of [var.reset_to_default()], with its state, and the
    function the class gives, when [var] has the capability. *)
Definition reset_of (w : world) (var : value)
    : option (addr * ext * (data → outcome data)) :=
  match var with
  | VRef a =>
      match w_exts w !! a with
      | Some o =>
          match c_reset_to_default (classes (e_class o)) with
          | Some f => Some (a, o, f)
          | None => None
          end
      | None => None
      end
  | _ => None
  end.

Definition failed_to_reset (w : world) (var : value) (e : exn) : exn :=
  Exn Exception
    ("Failed to reset_to_default for " +:+ str_in classes w var +:+ ": "
       +:+ exn_str e).

(** The objects reset-all works on: the values of the enumerated attributes
    that have [reset_to_default]. *)
Definition reset_target (w : world) (self : addr) (a : addr) : Prop :=
  ∃ atr o f, atr ∈ extension_attr_props (w_props w self)
    ∧ getattr_props (w_props w self) atr = Ok (VRef a)
    ∧ w_exts w !! a = Some o
    ∧ c_reset_to_default (classes (e_class o)) = Some f.

(** Resetting what [reset_to_default] produced gives the same state again. *)
Definition resets_idempotent : Prop :=
  ∀ c f s s', c_reset_to_default (classes c) = Some f →
    f s = Ok s' → f s' = Ok s'.

End ResetViews.

Section PrefixViews.
Variable classes : cid → ext_class.

(** The objects prefix-all works on, in the order it comes to them: the
    values of the names [attr] that have [add_prefix]. *)
Definition add_prefix_targets (w : world) (self : addr) (attr : list string)
    : list addr :=
  omap (λ atr,
          match getattr_props (w_props w self) atr with
          | Ok var =>
              match add_prefix_of classes w var with
              | Some (a, _, _) => Some a
              | None => None
              end
          | Raise _ => None
          end) attr.

End PrefixViews.

(** ** [ModelProperties.apply_properties_from_dict] *)

(** [key in d]: a key of a dictionary, an element of a list, a substring of
    a string; anything else is not iterable.  The messages are those of
    CPython 3.11. *)
Definition contains (d : data) (key : string) : outcome bool :=
  match d with
  | DDict m => Ok (bool_decide (is_Some (m !! key)))
  | DList l =>
      Ok (existsb (λ x, match x with
                        | DStr s => bool_decide (s = key)
                        | _ => false
                        end) l)
  | DStr s => Ok (occurs key s)
  | DNone => Raise (Exn TypeError "argument of type 'NoneType' is not iterable")
  | DBool _ => Raise (Exn TypeError "argument of type 'bool' is not iterable")
  | DInt _ => Raise (Exn TypeError "argument of type 'int' is not iterable")
  end.

(** ** The comprehension, with [self._do_not_duplicate] looked up

    [extension_attr_props] filters with the tuple that properties.py
    defines.  The code reads it through the instance, as
    [self._do_not_duplicate]; the definitions below follow that lookup. *)

(** [atr in self._do_not_duplicate].  An object of the heap and a bound
    method are not iterable; the message of CPython names the class of the
    object, which is not modelled. *)
Definition in_do_not_duplicate (p : props) (atr : string) : outcome bool :=
  match getattr_props p "_do_not_duplicate" with
  | Ok (VData d) => contains d atr
  | Ok (VRef _) => Raise (Exn TypeError "argument is not iterable")
  | Ok (VMethod _) =>
      Raise (Exn TypeError "argument of type 'method' is not iterable")
  | Raise e => Raise e
  end.

(** [[atr for atr in names
      if not atr.startswith('_') and atr not in self._do_not_duplicate]]:
    [and] evaluates its second operand for a public name only. *)
Fixpoint comprehension (p : props) (names : list string)
    : outcome (list string) :=
  match names with
  | [] => Ok []
  | atr :: rest =>
      if startswith_underscore atr then comprehension p rest
      else
        match in_do_not_duplicate p atr with
        | Raise e => Raise e
        | Ok reserved =>
            match comprehension p rest with
            | Raise e => Raise e
            | Ok l => Ok (if reserved then l else atr :: l)
            end
        end
  end.

Definition extension_attr_lookup (p : props) : outcome (list string) :=
  comprehension p (dir_props p).

(** [self._do_not_duplicate] reads as the tuple that properties.py defines:
    no attribute of the instance stands in front of it. *)
Definition reserved_as_defined (p : props) : Prop :=
  getattr_props p "_do_not_duplicate"
  = Ok (VData (DList (DStr <$> _do_not_duplicate))).

(** An extension attribute attached to the object: a public name that the
    test of the comprehension does not find reserved, and that an extension
    package installed on the class or that is an attribute of the
    instance. *)
Definition attached (p : props) (atr : string) : Prop :=
  startswith_underscore atr = false
  ∧ in_do_not_duplicate p atr = Ok false
  ∧ (is_Some (p_members p !! atr) ∨ is_Some (p_slots p !! atr)).

Section ModelApply.

(** What [apply_properties_from_dict] of an extension class does, for the
    classes that define it: given the receiver and the model dictionary, it
    works on the objects of the heap and returns or raises. *)
Variable appliers : cid → option (addr → data → list ext → outcome unit * list ext).

(** The function behind [var.apply_properties_from_dict], when [var] has
    one. *)
Definition applier_of (w : world) (var : value)
    : option (addr * (addr → data → list ext → outcome unit * list ext)) :=
  match var with
  | VRef a =>
      match w_exts w !! a with
      | Some o =>
          match appliers (e_class o) with
          | Some f => Some (a, f)
          | None => None
          end
      | None => None
      end
  | _ => None
  end.

(** [hasattr(var, 'apply_properties_from_dict')] *)
Definition hasattr_apply (var : value) : M bool :=
  read (λ w, bool_decide (is_Some (applier_of w var))).

(** [var.apply_properties_from_dict(data)] *)
Definition call_apply_properties_from_dict (var : value) (d : data) : M unit :=
  let* '(a, o) := receiver var "apply_properties_from_dict" in
  match appliers (e_class o) with
  | None => raise (no_such_method "apply_properties_from_dict")
  | Some f =>
      λ w, let '(r, exts) := f a d (w_exts w) in
           (r, World (w_props w) exts (w_log w))
  end.

Definition failed_to_apply (atr : string) (e : exn) : exn :=
  Exn Exception
    ("Failed to apply " +:+ atr +:+ " properties to the Model: "
       +:+ exn_str e).

Definition apply_properties_from_dict_body (self : addr) (d : data)
    (atr : string) : M unit :=
  let* properties := lift (subscript d "properties") in
  let* present := lift (contains properties atr) in
  if negb present then ret tt
  else
    let* var := getattr self atr in
    let* has := hasattr_apply var in
    if negb has then ret tt
    else
      try_except
        (call_apply_properties_from_dict var d)
        is_Exception
        (λ e, raise (failed_to_apply atr e)).

(** [ModelProperties.apply_properties_from_dict(data)]; [d] is the
    parameter [data]. *)
Definition apply_properties_from_dict (self : addr) (d : data) : M unit :=
  let* attr := extension_attr self in
  for_each attr (apply_properties_from_dict_body self d).

End ModelApply.

(** ** More concrete classes and worlds *)

Module MoreExamples.

(** An [apply_properties_from_dict] in the style of honeybee-energy: it
    insists on the ['rooms'] entry of the model dictionary and keeps it. *)
Definition appliers (c : cid)
    : option (addr → data → list ext → outcome unit * list ext) :=
  match c with
  | 0 =>
      Some (λ a d exts,
              match subscript d "rooms" with
              | Ok rooms => (Ok tt, <[a := Ext 0 rooms]> exts)
              | Raise e => (Raise e, exts)
              end)
  | _ => None
  end.

(** An extension whose [reset_to_default] raises. *)
Definition failing_class : ext_class :=
  {| c_str := λ _, "Y";
     c_duplicate := None;
     c_add_prefix := None;
     c_reset_to_default := Some (λ _, Raise (Exn ValueError "no default"));
     c_to_dict := None;
     c_from_dict := None |}.

Definition classes (c : cid) : ext_class :=
  match c with
  | 0 => Examples.energy_class
  | 1 => failing_class
  | _ => Examples.opaque_class
  end.






(** Rooms of a package that attaches an extension under the name
    [do_not_duplicate]: one that holds object 1 there, and a fresh copy. *)
Definition odd_members : gmap string member :=
  {[ "do_not_duplicate" := MAccessor "_do_not_duplicate" ]}.

Definition room_odd : props :=
  Props Room odd_members {[ "_host" := VRef 0; "_do_not_duplicate" := VRef 1 ]}.

Definition room_odd_fresh : props :=
  Props Room odd_members {[ "_host" := VRef 2 ]}.

End MoreExamples.

(** * Facts *)

(** Unfolds the monad and the primitives a loop body is written with. *)
Ltac unfold_run :=
  unfold str, try_except, getattr, setattr, hasattr, receiver, log, lift,
    alloc, store, read, raise, ret, bind, hasattr_in, class_of.

(** ** The order of [dir] *)

Lemma ascii_compare_trans_le a b c :
  Ascii.compare a b ≠ Gt → Ascii.compare b c ≠ Gt → Ascii.compare a c ≠ Gt.
Proof.
  unfold Ascii.compare. rewrite !N.compare_le_iff. apply N.le_trans.
Qed.

Lemma string_compare_trans_le s1 : ∀ s2 s3,
  String.compare s1 s2 ≠ Gt → String.compare s2 s3 ≠ Gt →
  String.compare s1 s3 ≠ Gt.
Proof.
  induction s1 as [|a s1 IH]; intros [|b s2] [|c s3]; simpl; try done.
  unfold Ascii.compare.
  destruct (N.compare_spec (Ascii.N_of_ascii a) (Ascii.N_of_ascii b)) as [Hab|Hab|Hab];
    destruct (N.compare_spec (Ascii.N_of_ascii b) (Ascii.N_of_ascii c)) as [Hbc|Hbc|Hbc];
    destruct (N.compare_spec (Ascii.N_of_ascii a) (Ascii.N_of_ascii c)) as [Hac|Hac|Hac];
    try done; try lia; eauto.
Qed.

Lemma str_le_compare a b : str_le a b ↔ String.compare a b ≠ Gt.
Proof.
  unfold str_le, String.leb. destruct (String.compare a b); naive_solver.
Qed.

Global Instance str_le_trans : Transitive str_le.
Proof.
  intros a b c. rewrite !str_le_compare. apply string_compare_trans_le.
Qed.

Global Instance str_le_total : Total str_le.
Proof. intros a b. apply String.leb_total. Qed.

Global Instance str_le_antisymm : AntiSymm (=) str_le.
Proof. intros a b. apply String.leb_antisym. Qed.

(** ** What [dir] and the enumerations contain *)

Lemma elem_of_dir_props p x :
  x ∈ dir_props p ↔
  x ∈ core_names (p_variant p) ∨ is_Some (p_members p !! x)
  ∨ is_Some (p_slots p !! x).
Proof.
  unfold dir_props. rewrite merge_sort_Permutation, elem_of_elements.
  rewrite !elem_of_union, elem_of_list_to_set, !elem_of_dom. tauto.
Qed.

Lemma NoDup_dir_props p : NoDup (dir_props p).
Proof.
  unfold dir_props. rewrite merge_sort_Permutation. apply NoDup_elements.
Qed.

Lemma Sorted_dir_props p : Sorted str_le (dir_props p).
Proof. apply (Sorted_merge_sort _). Qed.

Lemma elem_of_extension_attr_props p x :
  x ∈ extension_attr_props p ↔
  startswith_underscore x = false ∧ (x ∉ _do_not_duplicate) ∧ x ∈ dir_props p.
Proof.
  unfold extension_attr_props. rewrite list_elem_of_filter.
  rewrite andb_True, !negb_True, bool_decide_spec.
  destruct (startswith_underscore x); naive_solver.
Qed.

Lemma NoDup_extension_attr_props p : NoDup (extension_attr_props p).
Proof. apply NoDup_filter, NoDup_dir_props. Qed.

Lemma Sorted_filter {A} (R : relation A) `{!Transitive R} (P : A → Prop)
    `{∀ x, Decision (P x)} l :
  Sorted R l → Sorted R (filter P l).
Proof.
  intros Hs. apply Sorted_StronglySorted in Hs; [|done].
  apply StronglySorted_Sorted.
  induction Hs as [|x l Hl IH Hx]; [constructor|].
  rewrite filter_cons. destruct (decide (P x)); [|done].
  constructor; [done|].
  apply Forall_forall. intros y Hy. apply list_elem_of_filter in Hy as [_ Hy].
  rewrite Forall_forall in Hx. auto.
Qed.

Lemma Sorted_extension_attr_props p : Sorted str_le (extension_attr_props p).
Proof. apply Sorted_filter; [apply _|apply Sorted_dir_props]. Qed.

(** Two objects with the same public names have the same enumeration. *)
Lemma extension_attr_props_ext p q :
  (∀ x, startswith_underscore x = false → (x ∈ dir_props p ↔ x ∈ dir_props q)) →
  extension_attr_props p = extension_attr_props q.
Proof.
  intros Hpq. apply (Sorted_unique str_le); try apply Sorted_extension_attr_props.
  apply NoDup_Permutation; try apply NoDup_extension_attr_props.
  intros x. rewrite !elem_of_extension_attr_props. naive_solver.
Qed.

(** ** Serialization: the loop and its trace *)

Section Serialization.
Variable classes : cid → ext_class.

Lemma add_log_nil w : add_log w [] = w.
Proof. destruct w. unfold add_log. simpl. by rewrite app_nil_r. Qed.

Lemma add_log_app w evs evs' :
  add_log (add_log w evs) evs' = add_log w (evs ++ evs').
Proof. unfold add_log. simpl. by rewrite app_assoc. Qed.

(** One round of the serialization loop. *)
Lemma to_dict_body_run self abridged atr base w :
  to_dict_body classes self abridged atr base w =
  match getattr_props (w_props w self) atr with
  | Raise e => (Raise e, w)
  | Ok var =>
      match to_dict_of classes w var abridged with
      | None => (Ok base, w)
      | Some (a, Ok d) => (Ok (update base d), add_log w [EToDict a abridged])
      | Some (a, Raise e) =>
          (Raise (if is_Exception (exn_cls e)
                  then failed_to_convert classes w var e else e),
           add_log w [EToDict a abridged])
      end
  end.
Proof.
  unfold to_dict_body, call_to_dict. unfold_run. unfold to_dict_of.
  destruct (getattr_props (w_props w self) atr) as [var|e]; [|done].
  destruct var as [|a|]; simpl; try done.
  destruct (w_exts w !! a) as [o|] eqn:Ho; simpl; [|done].
  unfold class_has.
  destruct (c_to_dict (classes (e_class o))) as [f|] eqn:Hf; simpl; [|done].
  rewrite ?Ho; simpl; rewrite ?Hf; simpl.
  destruct (f (e_state o) abridged) as [d|e]; simpl; [done|].
  unfold failed_to_convert, str_in. rewrite ?Ho.
  by destruct (is_Exception (exn_cls e)).
Qed.

(** Logging changes nothing the serialization loop reads. *)
Lemma to_dict_trace_add_log w evs self attr : ∀ base abridged,
  to_dict_trace classes (add_log w evs) self attr base abridged
  = to_dict_trace classes w self attr base abridged.
Proof.
  induction attr as [|atr rest IH]; intros base abridged; simpl; [done|].
  destruct (getattr_props (w_props w self) atr) as [var|e]; [|done].
  destruct var as [|a|]; simpl; try apply IH.
  destruct (w_exts w !! a) as [o|]; simpl; try apply IH.
  destruct (c_to_dict (classes (e_class o))) as [f|]; try apply IH.
  destruct (f (e_state o) abridged); [|done].
  by rewrite IH.
Qed.

Lemma to_dict_loop_trace self attr : ∀ base abridged w,
  to_dict_loop classes self attr base abridged w
  = (fst (to_dict_trace classes w self attr base abridged),
     add_log w (snd (to_dict_trace classes w self attr base abridged))).
Proof.
  induction attr as [|atr rest IH]; intros base abridged w.
  { simpl. by rewrite add_log_nil. }
  unfold to_dict_loop in *. simpl. unfold bind at 1.
  rewrite to_dict_body_run.
  destruct (getattr_props (w_props w self) atr) as [var|e]; simpl.
  2:{ by rewrite add_log_nil. }
  destruct (to_dict_of classes w var abridged) as [[a [d|e]]|]; simpl.
  - rewrite IH, to_dict_trace_add_log, add_log_app.
    by destruct (to_dict_trace classes w self rest (update base d) abridged).
  - done.
  - apply IH.
Qed.

(** The outcome of the loop, when it is a dictionary, is the base updated by
    the outputs one after the other. *)
Lemma to_dict_trace_Ok w self attr : ∀ base abridged m evs,
  to_dict_trace classes w self attr base abridged = (Ok m, evs) →
  m = foldl update base (outputs classes w self attr abridged).
Proof.
  induction attr as [|atr rest IH]; intros base abridged m evs; simpl.
  { by intros [= ->]. }
  unfold outputs. simpl.
  destruct (getattr_props (w_props w self) atr) as [var|e]; [|done].
  destruct (to_dict_of classes w var abridged) as [[a [d|e]]|]; simpl.
  - destruct (to_dict_trace classes w self rest (update base d) abridged)
      as [r evs'] eqn:Hrest.
    intros [= -> <-]. by apply IH in Hrest.
  - done.
  - apply IH.
Qed.

End Serialization.

Lemma lookup_update (base d : dict) k :
  update base d !! k = match d !! k with Some x => Some x | None => base !! k end.
Proof.
  unfold update. rewrite lookup_union. destruct (d !! k), (base !! k); done.
Qed.

Lemma last_cons_Some {A} (x : A) l :
  last (x :: l) = match last l with Some y => Some y | None => Some x end.
Proof.
  revert x. induction l as [|y l IH]; intros x; [done|].
  rewrite last_cons_cons, (IH y). by destruct (last l).
Qed.

Lemma last_value_cons (d : dict) ds k :
  last_value (d :: ds) k
  = match last_value ds k with Some y => Some y | None => d !! k end.
Proof.
  unfold last_value. cbn [omap list_omap].
  destruct (d !! k) as [x|]; [apply last_cons_Some|].
  by destruct (last _).
Qed.

Lemma foldl_update_lookup ds : ∀ (base : dict) k,
  foldl update base ds !! k
  = match last_value ds k with Some x => Some x | None => base !! k end.
Proof.
  induction ds as [|d ds IH]; intros base k; [done|].
  cbn [foldl]. rewrite IH, last_value_cons, lookup_update.
  by destruct (last_value ds k).
Qed.

Lemma last_value_None ds k :
  last_value ds k = None ↔ ∀ d : dict, d ∈ ds → d !! k = None.
Proof.
  unfold last_value. rewrite last_None. split.
  - intros Hnil d Hd. destruct (d !! k) as [x|] eqn:Hx; [|done].
    assert (x ∈ omap (λ d0 : dict, d0 !! k) ds) as Hin
      by (apply list_elem_of_omap; eauto).
    rewrite Hnil in Hin. by apply elem_of_nil in Hin.
  - intros Hall. destruct (omap (λ d0 : dict, d0 !! k) ds) as [|x l] eqn:Hl; [done|].
    assert (x ∈ omap (λ d0 : dict, d0 !! k) ds) as Hin by (rewrite Hl; left).
    apply list_elem_of_omap in Hin as (d & Hd & Hx). rewrite Hall in Hx; done.
Qed.

Lemma last_value_app_cons pre (d : dict) post k x :
  d !! k = Some x → (∀ d' : dict, d' ∈ post → d' !! k = None) →
  last_value (pre ++ d :: post) k = Some x.
Proof.
  intros Hd Hpost. apply last_value_None in Hpost.
  induction pre as [|d' pre IH]; simpl; rewrite last_value_cons.
  - by rewrite Hpost.
  - by rewrite IH.
Qed.

(** ** Serialization: what a run has done *)

Section SerializationFacts.
Variable classes : cid → ext_class.

Lemma add_extension_attr_to_dict_run self base abridged include w :
  _add_extension_attr_to_dict classes self base abridged include w
  = to_dict_loop classes self (selected w self include) base (Some abridged) w.
Proof. by destruct include. Qed.

Lemma ModelProperties_to_dict_run self include w :
  ModelProperties_to_dict classes self include w
  = to_dict_loop classes self (model_selected w self include)
      {[ "type" := DStr "ModelProperties" ]} None w.
Proof. by destruct include. Qed.

(** A loop that hands back a dictionary made every invocation it could, and
    every one of them succeeded. *)
Lemma to_dict_trace_Ok_all w self attr : ∀ base abridged m evs,
  to_dict_trace classes w self attr base abridged = (Ok m, evs) →
  ∀ atr, atr ∈ attr →
    ∃ var, getattr_props (w_props w self) atr = Ok var ∧
      ∀ a r, to_dict_of classes w var abridged = Some (a, r) →
        ∃ d, r = Ok d ∧ EToDict a abridged ∈ evs.
Proof.
  induction attr as [|atr' rest IH]; intros base abridged m evs Hrun atr Hin.
  { by apply elem_of_nil in Hin. }
  simpl in Hrun.
  destruct (getattr_props (w_props w self) atr') as [var'|e] eqn:Hget; [|done].
  destruct (to_dict_of classes w var' abridged) as [[a' [d'|e]]|] eqn:Hto;
    [|done|].
  - destruct (to_dict_trace classes w self rest (update base d') abridged)
      as [r evs'] eqn:Hrest. simplify_eq.
    apply elem_of_cons in Hin as [->|Hin].
    + exists var'. split; [done|]. intros a r Hto'. rewrite Hto in Hto'.
      simplify_eq. exists d'. split; [done|]. left.
    + destruct (IH _ _ _ _ Hrest atr Hin) as (var & Hvar & Hall).
      exists var. split; [done|]. intros a r Hto'.
      destruct (Hall a r Hto') as (d & -> & Hev). exists d. split; [done|].
      by right.
  - apply elem_of_cons in Hin as [->|Hin].
    + exists var'. split; [done|]. intros a r Hto'. by rewrite Hto in Hto'.
    + eauto.
Qed.

(** When every name can be read and every invocation succeeds, the loop
    hands back a dictionary. *)
Lemma to_dict_trace_total w self attr : ∀ base abridged,
  (∀ atr, atr ∈ attr →
     ∃ var, getattr_props (w_props w self) atr = Ok var ∧
       ∀ a r, to_dict_of classes w var abridged = Some (a, r) → ∃ d, r = Ok d) →
  ∃ m evs, to_dict_trace classes w self attr base abridged = (Ok m, evs).
Proof.
  induction attr as [|atr rest IH]; intros base abridged Hall; simpl; [eauto|].
  destruct (Hall atr) as (var & -> & Hvar); [left|].
  assert (∀ atr0, atr0 ∈ rest →
     ∃ var0, getattr_props (w_props w self) atr0 = Ok var0 ∧
       ∀ a r, to_dict_of classes w var0 abridged = Some (a, r) → ∃ d, r = Ok d)
    as Hrest by (intros ??; apply Hall; by right).
  destruct (to_dict_of classes w var abridged) as [[a r]|] eqn:Hto; [|eauto].
  destruct (Hvar a r eq_refl) as [d ->].
  destruct (IH (update base d) abridged Hrest) as (m & evs & ->). eauto.
Qed.

(** Every invocation of the loop is a [to_dict] with the argument of the
    loop. *)
Lemma to_dict_trace_events w self attr : ∀ base abridged ev,
  ev ∈ snd (to_dict_trace classes w self attr base abridged) →
  ∃ atr var a r, atr ∈ attr ∧ getattr_props (w_props w self) atr = Ok var ∧
    to_dict_of classes w var abridged = Some (a, r) ∧ ev = EToDict a abridged.
Proof.
  induction attr as [|atr rest IH]; intros base abridged ev; simpl.
  { by intros ?%elem_of_nil. }
  destruct (getattr_props (w_props w self) atr) as [var|e] eqn:Hget; simpl.
  2:{ by intros ?%elem_of_nil. }
  destruct (to_dict_of classes w var abridged) as [[a [d|e]]|] eqn:Hto.
  - destruct (to_dict_trace classes w self rest (update base d) abridged)
      as [r evs'] eqn:Hrest. simpl.
    intros [->|Hin]%elem_of_cons.
    + exists atr, var, a, (Ok d). repeat split; try done. left.
    + specialize (IH (update base d) abridged ev). rewrite Hrest in IH.
      destruct (IH Hin) as (atr0 & var0 & a0 & r0 & ? & ? & ? & ?).
      exists atr0, var0, a0, r0. repeat split; try done. by right.
  - simpl. intros ->%list_elem_of_singleton.
    exists atr, var, a, (Raise e). repeat split; try done. left.
  - intros Hin. destruct (IH _ _ _ Hin) as (atr0 & var0 & a0 & r0 & ? & ? & ? & ?).
    exists atr0, var0, a0, r0. repeat split; try done. by right.
Qed.

End SerializationFacts.

(** ** Serialization: allow-list, failures, tags, merging *)

Section SerializationClaims.
Variable classes : cid → ext_class.

Lemma elem_of_outputs w self attr abridged d :
  d ∈ outputs classes w self attr abridged ↔
  ∃ atr var a, atr ∈ attr ∧ getattr_props (w_props w self) atr = Ok var ∧
    to_dict_of classes w var abridged = Some (a, Ok d).
Proof.
  unfold outputs. rewrite list_elem_of_omap. split.
  - intros (atr & Hin & Hd).
    destruct (getattr_props (w_props w self) atr) as [var|] eqn:Hget; [|done].
    destruct (to_dict_of classes w var abridged) as [[a [d'|]]|] eqn:Hto;
      simplify_eq. eauto 10.
  - intros (atr & var & a & Hin & Hget & Hto). exists atr.
    by rewrite Hget, Hto.
Qed.


(** [to_dict v] is the serialization loop started from the tag of [v]. *)
Lemma to_dict_run v self abridged include w :
  to_dict classes v self abridged include w
  = to_dict_loop classes self (to_dict_names v w self include)
      {[ "type" := DStr (type_tag v abridged) ]} (to_dict_arg v abridged) w.
Proof.
  destruct v; simpl; try apply ModelProperties_to_dict_run;
    unfold RoomProperties_to_dict, FaceProperties_to_dict,
      ShadeProperties_to_dict, ApertureProperties_to_dict,
      DoorProperties_to_dict;
    rewrite add_extension_attr_to_dict_run; by destruct abridged.
Qed.

(** C10: serialize-all merges the outputs of the selected extensions into
    the base map by shallow update, one after the other in enumeration
    order, so the last writer of a key wins: the value of every key of the
    returned map, ["type"] included, is the one of the last output that has
    the key, and the one of the base map only when no output has it.  The
    same holds for [ModelProperties.to_dict], whose base map is its tag. *)
Theorem to_dict_last_writer_wins self base abridged include w m w' ds :
  (_add_extension_attr_to_dict classes self base abridged include w = (Ok m, w')
   ∧ ds = outputs classes w self (selected w self include) (Some abridged))
  ∨ (ModelProperties_to_dict classes self include w = (Ok m, w')
     ∧ base = {[ "type" := DStr "ModelProperties" ]}
     ∧ ds = outputs classes w self (model_selected w self include) None) →
  m = foldl update base ds
  ∧ ∀ k, m !! k
         = match last_value ds k with Some x => Some x | None => base !! k end.
Proof.
  intros [[Hrun ->]|(Hrun & -> & ->)].
  - rewrite add_extension_attr_to_dict_run, to_dict_loop_trace in Hrun.
    destruct (to_dict_trace classes w self (selected w self include) base
                (Some abridged)) as [r evs] eqn:Htr.
    simpl in Hrun. simplify_eq. apply to_dict_trace_Ok in Htr as ->.
    split; [done|]. intros k. apply foldl_update_lookup.
  - rewrite ModelProperties_to_dict_run, to_dict_loop_trace in Hrun.
    destruct (to_dict_trace classes w self (model_selected w self include)
                {[ "type" := DStr "ModelProperties" ]} None) as [r evs] eqn:Htr.
    simpl in Hrun. simplify_eq. apply to_dict_trace_Ok in Htr as ->.
    split; [done|]. intros k. apply foldl_update_lookup.
Qed.


(** C7, as the code has it: [to_dict] of a variant starts from the map
    [{"type": tag}], where the tag is ["<V>Properties"], followed by
    ["Abridged"] when [abridged] is set, for the five non-model variants
    and ["ModelProperties"] for the model, which takes no [abridged] flag;
    every invocation it makes is a [to_dict] that receives [abridged] for
    the five variants and no argument for the model; and the ["type"] of
    the returned map is that tag whenever no output of an extension has a
    ["type"] key of its own. *)
Theorem type_tag_unless_overwritten v self abridged include w m w' :
  to_dict classes v self abridged include w = (Ok m, w') →
  (∀ d : dict,
     d ∈ outputs classes w self (to_dict_names v w self include)
           (to_dict_arg v abridged) →
     d !! "type" = None) →
  m !! "type" = Some (DStr (type_tag v abridged))
  ∧ type_tag v abridged
    = match v with
      | Model => "ModelProperties"
      | Room => if abridged then "RoomPropertiesAbridged" else "RoomProperties"
      | Face => if abridged then "FacePropertiesAbridged" else "FaceProperties"
      | Shade => if abridged then "ShadePropertiesAbridged" else "ShadeProperties"
      | Aperture =>
          if abridged then "AperturePropertiesAbridged" else "ApertureProperties"
      | Door => if abridged then "DoorPropertiesAbridged" else "DoorProperties"
      end
  ∧ ∃ evs, w_log w' = w_log w ++ evs
      ∧ ∀ ev, ev ∈ evs →
          ∃ a, ev = EToDict a (match v with Model => None | _ => Some abridged end).
Proof.
  intros Hrun Hnone. rewrite to_dict_run, to_dict_loop_trace in Hrun.
  destruct (to_dict_trace classes w self (to_dict_names v w self include)
              {[ "type" := DStr (type_tag v abridged) ]} (to_dict_arg v abridged))
    as [res evs] eqn:Htr.
  simpl in Hrun. simplify_eq. split; [|split].
  - apply to_dict_trace_Ok in Htr as ->. rewrite foldl_update_lookup.
    apply last_value_None in Hnone. rewrite Hnone.
    apply lookup_singleton_eq.
  - by destruct v, abridged.
  - exists evs. split; [done|]. intros ev Hev.
    pose proof (to_dict_trace_events classes w self
                  (to_dict_names v w self include)
                  {[ "type" := DStr (type_tag v abridged) ]}
                  (to_dict_arg v abridged) ev) as Hevs.
    rewrite Htr in Hevs. destruct (Hevs Hev) as (_ & _ & a & _ & _ & _ & _ & ->).
    exists a. by destruct v.
Qed.

End SerializationClaims.

(** ** prefix-all *)

Section Prefix.
Variable classes : cid → ext_class.

Lemma add_prefix_body_run self prefix atr w :
  _add_prefix_extension_attr_body classes self prefix atr w =
  match getattr_props (w_props w self) atr with
  | Raise e => (Raise e, w)
  | Ok var =>
      match add_prefix_of classes w var with
      | None => (Ok tt, w)
      | Some (a, o, f) =>
          match f (e_state o) prefix with
          | Ok s =>
              (Ok tt,
               World (w_props w) (<[a := Ext (e_class o) s]> (w_exts w))
                     (w_log w ++ [EAddPrefix a prefix]))
          | Raise e =>
              (Raise (if is_Exception (exn_cls e)
                      then failed_to_add_prefix classes w var e else e),
               add_log w [EAddPrefix a prefix])
          end
      end
  end.
Proof.
  unfold _add_prefix_extension_attr_body, call_add_prefix. unfold_run.
  unfold add_prefix_of.
  destruct (getattr_props (w_props w self) atr) as [var|e]; [|done].
  destruct var as [|a|]; simpl; try done.
  destruct (w_exts w !! a) as [o|] eqn:Ho; simpl; [|done].
  unfold class_has.
  destruct (c_add_prefix (classes (e_class o))) as [f|] eqn:Hf; simpl; [|done].
  rewrite ?Ho; simpl; rewrite ?Hf; simpl.
  destruct (f (e_state o) prefix) as [s|e]; simpl; [done|].
  unfold failed_to_add_prefix, str_in. rewrite ?Ho.
  by destruct (is_Exception (exn_cls e)).
Qed.

Lemma add_prefix_of_Some w var a o f :
  add_prefix_of classes w var = Some (a, o, f) ↔
  var = VRef a ∧ w_exts w !! a = Some o
  ∧ c_add_prefix (classes (e_class o)) = Some f.
Proof.
  unfold add_prefix_of. destruct var as [|a'|]; try naive_solver.
  destruct (w_exts w !! a') as [o'|] eqn:Ho; [|naive_solver].
  destruct (c_add_prefix (classes (e_class o'))) as [f'|] eqn:Hf; naive_solver.
Qed.

(** What the loop of prefix-all does to a world, whatever its outcome. *)
Lemma add_prefix_loop self prefix attr : ∀ w r w',
  for_each attr (_add_prefix_extension_attr_body classes self prefix) w = (r, w') →
  w_props w' = w_props w
  ∧ (∀ a, e_class <$> w_exts w' !! a = e_class <$> w_exts w !! a)
  ∧ (∀ a o, w_exts w !! a = Some o →
       c_add_prefix (classes (e_class o)) = None → w_exts w' !! a = Some o)
  ∧ ∃ evs, w_log w' = w_log w ++ evs
      ∧ (∀ ev, ev ∈ evs →
           ∃ atr a o f, atr ∈ attr
             ∧ getattr_props (w_props w self) atr = Ok (VRef a)
             ∧ w_exts w !! a = Some o
             ∧ c_add_prefix (classes (e_class o)) = Some f
             ∧ ev = EAddPrefix a prefix)
      ∧ (r = Ok tt →
         ∀ atr a o f, atr ∈ attr →
           getattr_props (w_props w self) atr = Ok (VRef a) →
           w_exts w !! a = Some o →
           c_add_prefix (classes (e_class o)) = Some f →
           EAddPrefix a prefix ∈ evs).
Proof.
  induction attr as [|atr rest IH]; intros w r w' Hrun.
  { simpl in Hrun. unfold ret in Hrun. simplify_eq.
    repeat split; try done. exists []. rewrite app_nil_r.
    repeat split; try done.
    - by intros ev ?%elem_of_nil.
    - by intros _ ???? ?%elem_of_nil. }
  simpl in Hrun. unfold bind in Hrun. rewrite add_prefix_body_run in Hrun.
  destruct (getattr_props (w_props w self) atr) as [var|e] eqn:Hget.
  2:{ simplify_eq. repeat split; try done. exists []. rewrite app_nil_r.
      repeat split; try done. by intros ev ?%elem_of_nil. }
  destruct (add_prefix_of classes w var) as [[[a o] f]|] eqn:Hcap.
  2:{ destruct (IH _ _ _ Hrun) as (Hp & Hc & Hf & evs & Hlog & Hevs & Hall).
      repeat split; try done. exists evs. repeat split; try done.
      - intros ev Hev. destruct (Hevs ev Hev) as (atr' & a & o & f & ? & ?).
        exists atr', a, o, f. split; [by right|done].
      - intros Hr atr' a o f [->|Hin]%elem_of_cons Hget' Ho Hf'.
        + rewrite Hget in Hget'. simplify_eq.
          assert (add_prefix_of classes w (VRef a) = Some (a, o, f)) as Hs
            by by apply add_prefix_of_Some.
          by rewrite Hcap in Hs.
        + eauto. }
  apply add_prefix_of_Some in Hcap as (-> & Ho & Hf).
  destruct (f (e_state o) prefix) as [s|e] eqn:Hs.
  2:{ simplify_eq. repeat split; try done.
      exists [EAddPrefix a prefix]. repeat split; try done.
      intros ev ->%list_elem_of_singleton.
      exists atr, a, o, f. repeat split; try done. left. }
  destruct (IH _ _ _ Hrun) as (Hp & Hc & Hfr & evs & Hlog & Hevs & Hall).
  simpl in Hp, Hc, Hfr, Hlog, Hevs, Hall.
  assert (∀ b, e_class <$> <[a:=Ext (e_class o) s]> (w_exts w) !! b
               = e_class <$> w_exts w !! b) as Hcls.
  { intros b. destruct (decide (a = b)) as [<-|Hne].
    - rewrite list_lookup_insert_eq by (by eapply lookup_lt_Some).
      by rewrite Ho.
    - by rewrite list_lookup_insert_ne. }
  repeat split; try done.
  - intros b. by rewrite Hc, Hcls.
  - intros b ob Hob Hnone. apply Hfr; [|done].
    rewrite list_lookup_insert_ne; [done|]. intros <-.
    rewrite Ho in Hob. simplify_eq.
  - exists (EAddPrefix a prefix :: evs). rewrite Hlog, <-app_assoc.
    repeat split; try done.
    + intros ev [->|Hev]%elem_of_cons.
      { exists atr, a, o, f. repeat split; try done. left. }
      destruct (Hevs ev Hev) as (atr' & b & ob & fb & Hin & Hgb & Hob & Hfb & ->).
      pose proof (Hcls b) as Hb. rewrite Hob in Hb. simpl in Hb.
      destruct (w_exts w !! b) as [ob'|] eqn:Hob'; simplify_eq.
      exists atr', b, ob', fb. repeat split; try done; [by right|].
      simpl in Hb. congruence.
    + intros Hr atr' b ob fb [->|Hin]%elem_of_cons Hgb Hob Hfb.
      { rewrite Hget in Hgb. simplify_eq. left. }
      right. pose proof (Hcls b) as Hb. rewrite Hob in Hb. simpl in Hb.
      destruct (<[a:=Ext (e_class o) s]> (w_exts w) !! b) as [ob'|] eqn:Hob';
        simplify_eq.
      eapply (Hall ltac:(done) atr' b ob' fb); try done.
      simpl in Hb. congruence.
Qed.

(** C8: prefix-all leaves the properties object as it is, so every
    attribute keeps referring to the same object; it invokes
    [add_prefix(prefix)], and nothing else, only on objects that are the
    value of an enumerated attribute and have the capability, on each of
    them when the call returns; and an object without the capability is in
    the heap afterwards exactly as it was before. *)
Theorem add_prefix_isolation self prefix w r w' :
  _add_prefix_extension_attr classes self prefix w = (r, w') →
  w_props w' = w_props w
  ∧ (∀ a o, w_exts w !! a = Some o →
       c_add_prefix (classes (e_class o)) = None → w_exts w' !! a = Some o)
  ∧ ∃ evs, w_log w' = w_log w ++ evs
      ∧ (∀ ev, ev ∈ evs →
           ∃ atr a o f, atr ∈ extension_attr_props (w_props w self)
             ∧ getattr_props (w_props w self) atr = Ok (VRef a)
             ∧ w_exts w !! a = Some o
             ∧ c_add_prefix (classes (e_class o)) = Some f
             ∧ ev = EAddPrefix a prefix)
      ∧ (r = Ok tt →
         ∀ atr a o f, atr ∈ extension_attr_props (w_props w self) →
           getattr_props (w_props w self) atr = Ok (VRef a) →
           w_exts w !! a = Some o →
           c_add_prefix (classes (e_class o)) = Some f →
           EAddPrefix a prefix ∈ evs).
Proof.
  intros Hrun. unfold _add_prefix_extension_attr, extension_attr, read in Hrun.
  unfold bind at 1 in Hrun.
  destruct (add_prefix_loop _ _ _ _ _ _ Hrun) as (Hp & _ & Hf & Hevs).
  done.
Qed.

End Prefix.

(** ** duplicate-all and deserialize-all: one round *)

Section Installing.
Variable classes : cid → ext_class.

Lemma str_in_made w ev o' a o :
  w_exts w !! a = Some o →
  str_in classes (made w ev o') (VRef a) = str_in classes w (VRef a).
Proof.
  intros Ho. unfold str_in, made. simpl.
  by rewrite (lookup_app_l_Some _ _ _ _ Ho), Ho.
Qed.

Lemma duplicate_body_run self original atr w :
  _duplicate_extension_attr_body classes self original atr w =
  match getattr_props (w_props w original) atr with
  | Raise e => (Raise e, w)
  | Ok var =>
      match duplicate_of classes w var with
      | None => (Ok tt, w)
      | Some (a, o, f) =>
          let wrap e :=
            if is_Exception (exn_cls e)
            then failed_to_duplicate classes w var e else e in
          match getattr_props (w_props w self) "host" with
          | Raise e => (Raise (wrap e), w)
          | Ok host =>
              match f (e_state o) host with
              | Raise e => (Raise (wrap e), add_log w [EDuplicate a host])
              | Ok o' =>
                  let w1 := made w (EDuplicate a host) o' in
                  match setattr_props (w_props w self) ("_" +:+ atr)
                          (VRef (length (w_exts w))) with
                  | Raise e => (Raise (wrap e), w1)
                  | Ok p' => (Ok tt, with_props w1 self p')
                  end
              end
          end
      end
  end.
Proof.
  unfold _duplicate_extension_attr_body, call_duplicate. unfold_run.
  unfold duplicate_of.
  destruct (getattr_props (w_props w original) atr) as [var|e]; [|done].
  destruct var as [|a|]; simpl; try done.
  destruct (w_exts w !! a) as [o|] eqn:Ho; simpl; [|done].
  unfold class_has.
  destruct (c_duplicate (classes (e_class o))) as [f|] eqn:Hf; simpl; [|done].
  destruct (getattr_props (w_props w self) "host") as [host|e] eqn:Hhost; simpl.
  2:{ unfold failed_to_duplicate, str_in. rewrite ?Ho.
      by destruct (is_Exception (exn_cls e)). }
  rewrite ?Ho; simpl; rewrite ?Hf; simpl.
  destruct (f (e_state o) host) as [o'|e]; simpl.
  2:{ unfold failed_to_duplicate, str_in. rewrite ?Ho.
      by destruct (is_Exception (exn_cls e)). }
  destruct (setattr_props (w_props w self) ("_" +:+ atr)
              (VRef (length (w_exts w)))) as [p'|e]; simpl; [done|].
  unfold failed_to_duplicate, str_in, made. simpl.
  rewrite (lookup_app_l_Some _ _ _ _ Ho), ?Ho.
  by destruct (is_Exception (exn_cls e)).
Qed.

Lemma load_body_run self property_dict atr w :
  _load_extension_attr_from_dict_body classes self property_dict atr w =
  match getattr_props (w_props w self) atr with
  | Raise e => (Raise e, w)
  | Ok var =>
      match from_dict_of classes w var with
      | None => (Ok tt, w)
      | Some (c, f) =>
          let pass (e : exn) (w' : world) : outcome unit * world :=
            (if is_KeyError (exn_cls e) then Ok tt else Raise e, w') in
          match subscript property_dict atr with
          | Raise e => pass e w
          | Ok sub =>
              match getattr_props (w_props w self) "host" with
              | Raise e => pass e w
              | Ok host =>
                  match f sub host with
                  | Raise e => pass e (add_log w [EFromDict c sub host])
                  | Ok o' =>
                      let w1 := made w (EFromDict c sub host) o' in
                      match setattr_props (w_props w self) ("_" +:+ atr)
                              (VRef (length (w_exts w))) with
                      | Raise e => pass e w1
                      | Ok p' => (Ok tt, with_props w1 self p')
                      end
                  end
              end
          end
      end
  end.
Proof.
  unfold _load_extension_attr_from_dict_body, call_from_dict. unfold_run.
  unfold from_dict_of.
  destruct (getattr_props (w_props w self) atr) as [var|e]; [|done].
  destruct var as [|a|]; simpl; try done.
  destruct (w_exts w !! a) as [o|] eqn:Ho; simpl; [|done].
  unfold class_has.
  destruct (c_from_dict (classes (e_class o))) as [f|] eqn:Hf; simpl; [|done].
  destruct (subscript property_dict atr) as [sub|e]; simpl.
  2:{ by destruct (is_KeyError (exn_cls e)). }
  destruct (getattr_props (w_props w self) "host") as [host|e] eqn:Hhost; simpl.
  2:{ by destruct (is_KeyError (exn_cls e)). }
  rewrite ?Ho; simpl; rewrite ?Hf; simpl.
  destruct (f sub host) as [o'|e]; simpl.
  2:{ by destruct (is_KeyError (exn_cls e)). }
  destruct (setattr_props (w_props w self) ("_" +:+ atr)
              (VRef (length (w_exts w)))) as [p'|e]; simpl; [done|].
  by destruct (is_KeyError (exn_cls e)).
Qed.

End Installing.

(** ** duplicate-all and deserialize-all: what they may touch *)

Section Installs.
Variable classes : cid → ext_class.

Lemma installs_refl self names w : installs self names w w.
Proof.
  repeat split; try done; try (by left); by exists []; rewrite app_nil_r.
Qed.

Lemma installs_trans self n1 n2 w w1 w2 :
  installs self n1 w w1 → installs self n2 w1 w2 →
  installs self (n1 ++ n2) w w2.
Proof.
  intros (Ho1 & Hv1 & Hm1 & Hs1 & [news1 Hx1] & [evs1 Hl1])
         (Ho2 & Hv2 & Hm2 & Hs2 & [news2 Hx2] & [evs2 Hl2]).
  repeat split.
  - intros o Hne. by rewrite Ho2, Ho1.
  - by rewrite Hv2.
  - by rewrite Hm2.
  - intros k. destruct (Hs2 k) as [Hk2|(atr & a & Hin & -> & Hk2 & Ha)].
    + destruct (Hs1 k) as [Hk1|(atr & a & Hin & -> & Hk1 & Ha)].
      * left. by rewrite Hk2.
      * right. exists atr, a. rewrite Hk2, Hk1, elem_of_app.
        repeat split; try done; [by left|lia|].
        rewrite Hx2, length_app. lia.
    + right. exists atr, a. rewrite elem_of_app.
      repeat split; try done; [by right| |lia].
      rewrite Hx1, length_app in Ha. lia.
  - exists (news1 ++ news2). by rewrite Hx2, Hx1, app_assoc.
  - exists (evs1 ++ evs2). by rewrite Hl2, Hl1, app_assoc.
Qed.

Lemma installs_add_log self names w evs : installs self names w (add_log w evs).
Proof.
  repeat split; try done; try (by left); [by exists []; rewrite app_nil_r|].
  by exists evs.
Qed.

Lemma setattr_props_Ok p name v p' :
  setattr_props p name v = Ok p' →
  p' = Props (p_variant p) (p_members p) (<[name := v]> (p_slots p)).
Proof.
  unfold setattr_props. destruct (class_lookup p name) as [[]|]; naive_solver.
Qed.

Lemma installs_made self atr w ev o' :
  installs self [atr] w (made w ev o').
Proof.
  repeat split; try done; try (by left); [by exists [o']|by exists [ev]].
Qed.

Lemma installs_with_props self atr w ev o' p' :
  setattr_props (w_props w self) ("_" +:+ atr) (VRef (length (w_exts w)))
  = Ok p' →
  installs self [atr] w (with_props (made w ev o') self p').
Proof.
  intros ->%setattr_props_Ok. unfold with_props, made. repeat split; simpl.
  - intros o Hne. by rewrite bool_decide_eq_false_2.
  - by rewrite bool_decide_eq_true_2.
  - by rewrite bool_decide_eq_true_2.
  - intros k. rewrite bool_decide_eq_true_2 by done. simpl.
    destruct (decide (k = "_" +:+ atr)) as [->|Hne].
    + right. exists atr, (length (w_exts w)).
      rewrite lookup_insert_eq, length_app. simpl.
      repeat split; try done; [left|lia].
    + left. by rewrite lookup_insert_ne.
  - by exists [o'].
  - by exists [ev].
Qed.

Lemma duplicate_body_installs self original atr w r w' :
  _duplicate_extension_attr_body classes self original atr w = (r, w') →
  installs self [atr] w w'.
Proof.
  rewrite duplicate_body_run.
  destruct (getattr_props (w_props w original) atr) as [var|e].
  2:{ intros [= <- <-]. apply installs_refl. }
  destruct (duplicate_of classes w var) as [[[a o] f]|].
  2:{ intros [= <- <-]. apply installs_refl. }
  simpl. destruct (getattr_props (w_props w self) "host") as [host|e].
  2:{ intros [= <- <-]. apply installs_refl. }
  destruct (f (e_state o) host) as [o'|e].
  2:{ intros [= <- <-]. apply installs_add_log. }
  destruct (setattr_props _ _ _) as [p'|e] eqn:Hset; intros [= <- <-].
  - by apply installs_with_props.
  - apply installs_made.
Qed.

Lemma load_body_installs self property_dict atr w r w' :
  _load_extension_attr_from_dict_body classes self property_dict atr w = (r, w') →
  installs self [atr] w w'.
Proof.
  rewrite load_body_run.
  destruct (getattr_props (w_props w self) atr) as [var|e].
  2:{ intros [= <- <-]. apply installs_refl. }
  destruct (from_dict_of classes w var) as [[c f]|].
  2:{ intros [= <- <-]. apply installs_refl. }
  simpl. destruct (subscript property_dict atr) as [sub|e].
  2:{ intros [= <- <-]. apply installs_refl. }
  destruct (getattr_props (w_props w self) "host") as [host|e].
  2:{ intros [= <- <-]. apply installs_refl. }
  destruct (f sub host) as [o'|e].
  2:{ intros [= <- <-]. apply installs_add_log. }
  destruct (setattr_props _ _ _) as [p'|e] eqn:Hset; intros [= <- <-].
  - by apply installs_with_props.
  - apply installs_made.
Qed.

Lemma for_each_installs self (body : string → M unit) :
  (∀ atr w r w', body atr w = (r, w') → installs self [atr] w w') →
  ∀ attr w r w', for_each attr body w = (r, w') → installs self attr w w'.
Proof.
  intros Hbody attr. induction attr as [|atr rest IH]; intros w r w' Hrun.
  { simpl in Hrun. unfold ret in Hrun. simplify_eq. apply installs_refl. }
  simpl in Hrun. unfold bind in Hrun.
  destruct (body atr w) as [[[]|e] w1] eqn:Hb.
  - apply (installs_trans self [atr] rest w w1 w'); eauto.
  - simplify_eq. apply (installs_trans self [atr] rest w w' w'); eauto.
    apply installs_refl.
Qed.

End Installs.

(** ** Where the new values are stored *)

Section Slots.
Variable classes : cid → ext_class.

Lemma startswith_underscore_cons atr : startswith_underscore ("_" +:+ atr) = true.
Proof. unfold startswith_underscore. simpl. by destruct atr. Qed.

Lemma underscore_inj (a b : string) : "_" +:+ a = "_" +:+ b → a = b.
Proof. cbn. intros H. by injection H. Qed.

Lemma duplicate_installs self original w r w' :
  _duplicate_extension_attr classes self original w = (r, w') →
  installs self (extension_attr_props (w_props w self)) w w'.
Proof.
  unfold _duplicate_extension_attr, extension_attr, read. unfold bind at 1.
  apply for_each_installs. apply duplicate_body_installs.
Qed.

Lemma load_installs self property_dict w r w' :
  _load_extension_attr_from_dict classes self property_dict w = (r, w') →
  installs self (extension_attr_props (w_props w self)) w w'.
Proof.
  unfold _load_extension_attr_from_dict, extension_attr, read. unfold bind at 1.
  apply for_each_installs. apply load_body_installs.
Qed.

(** Whatever duplicate-all or deserialize-all changes on [self] is an
    instance slot ["_" + n] of an enumerated name [n], which receives a new
    object; no slot with a public name changes.  So a value in the slot
    ["_" + n] is read back under [n] when [n] is an accessor over that slot,
    whereas a plain public data member [n] of the instance shows the same
    value after the call as before. *)
Lemma underscore_slot_frame self w r w' :
  (∃ original,
     _duplicate_extension_attr classes self original w = (r, w'))
  ∨ (∃ property_dict,
       _load_extension_attr_from_dict classes self property_dict w = (r, w')) →
  (∀ k, p_slots (w_props w' self) !! k = p_slots (w_props w self) !! k
        ∨ ∃ n a, n ∈ extension_attr_props (w_props w self)
            ∧ k = "_" +:+ n
            ∧ p_slots (w_props w' self) !! k = Some (VRef a)
            ∧ w_exts w !! a = None ∧ is_Some (w_exts w' !! a))
  ∧ (∀ k, startswith_underscore k = false →
          p_slots (w_props w' self) !! k = p_slots (w_props w self) !! k)
  ∧ (∀ n v, class_lookup (w_props w self) n = Some (MAccessor ("_" +:+ n)) →
            p_slots (w_props w' self) !! ("_" +:+ n) = Some v →
            getattr_props (w_props w' self) n = Ok v)
  ∧ (∀ n v, startswith_underscore n = false →
            (∀ slot, class_lookup (w_props w self) n ≠ Some (MAccessor slot)) →
            p_slots (w_props w self) !! n = Some v →
            getattr_props (w_props w self) n = Ok v
            ∧ getattr_props (w_props w' self) n = Ok v).
Proof.
  intros Hrun.
  assert (installs self (extension_attr_props (w_props w self)) w w')
    as (_ & Hv & Hm & Hs & _ & _).
  { destruct Hrun as [[original Hrun]|[property_dict Hrun]];
      [by eapply duplicate_installs|by eapply load_installs]. }
  assert (∀ n, class_lookup (w_props w' self) n = class_lookup (w_props w self) n)
    as Hcl by (intros n; unfold class_lookup; by rewrite Hv, Hm).
  assert (∀ k, startswith_underscore k = false →
            p_slots (w_props w' self) !! k = p_slots (w_props w self) !! k)
    as Hpub.
  { intros k Hk. destruct (Hs k) as [|(n & a & _ & -> & _)]; [done|].
    by rewrite startswith_underscore_cons in Hk. }
  split; [|split; [done|split]].
  - intros k. destruct (Hs k) as [|(n & a & Hin & -> & Hk & Ha)]; [by left|].
    right. exists n, a. repeat split; try done.
    + apply lookup_ge_None. lia.
    + apply lookup_lt_is_Some. lia.
  - intros n v Hacc Hslot. unfold getattr_props, lookup_plain.
    by rewrite Hcl, Hacc, Hslot.
  - intros n v Hn Hplain Hslot. unfold getattr_props, lookup_plain.
    rewrite Hcl, (Hpub n Hn), Hslot.
    destruct (class_lookup (w_props w self) n) as [[slot| |]|] eqn:Hc; try done.
    by destruct (Hplain slot).
Qed.

End Slots.

(** ** What a later round still reads *)

Section Transport.
Variable classes : cid → ext_class.

Lemma getattr_alive w o n v :
  refs_alive w o → getattr_props (w_props w o) n = Ok v → alive w v.
Proof.
  unfold refs_alive. rewrite andb_True, !bool_decide_spec.
  intros [Hslots Hmem].
  assert (∀ k, lookup_plain (w_props w o) k = Ok v → alive w v) as Hplain.
  { intros k. unfold lookup_plain.
    destruct (p_slots (w_props w o) !! k) as [x|] eqn:Hk.
    { intros [= ->]. by apply (Hslots k). }
    unfold class_lookup.
    destruct (bool_decide (k = "host")); [done|].
    destruct (bool_decide (k ∈ core_methods (p_variant (w_props w o)))).
    { by intros [= <-]. }
    destruct (bool_decide (k = "_do_not_duplicate")).
    { by intros [= <-]. }
    destruct (p_members (w_props w o) !! k) as [[| |x]|] eqn:Hm; try done.
    { by intros [= <-]. }
    intros [= ->]. by apply (Hmem k (MAttr v)). }
  unfold getattr_props.
  destruct (class_lookup (w_props w o) n) as [[slot| |]|]; eauto.
Qed.

Lemma installs_alive self names w w' v :
  installs self names w w' → alive w v → alive w' v.
Proof.
  intros (_ & _ & _ & _ & [news Hx] & _). destruct v as [|a|]; simpl; try done.
  rewrite !bool_decide_spec, Hx, length_app. lia.
Qed.

Lemma installs_lookup_ext self names w w' a :
  installs self names w w' → a < length (w_exts w) →
  w_exts w' !! a = w_exts w !! a.
Proof.
  intros (_ & _ & _ & _ & [news Hx] & _) Ha. rewrite Hx. by apply lookup_app_l.
Qed.

Lemma installs_duplicate_of self names w w' var :
  installs self names w w' → alive w var →
  duplicate_of classes w' var = duplicate_of classes w var.
Proof.
  intros Hi Hv. destruct var as [|a|]; try done. simpl in *.
  apply bool_decide_spec in Hv. by rewrite (installs_lookup_ext _ _ _ _ _ Hi Hv).
Qed.

Lemma installs_from_dict_of self names w w' var :
  installs self names w w' → alive w var →
  from_dict_of classes w' var = from_dict_of classes w var.
Proof.
  intros Hi Hv. destruct var as [|a|]; try done. simpl in *.
  apply bool_decide_spec in Hv. by rewrite (installs_lookup_ext _ _ _ _ _ Hi Hv).
Qed.

Lemma installs_other self names w w' o n :
  installs self names w w' → o ≠ self →
  getattr_props (w_props w' o) n = getattr_props (w_props w o) n.
Proof. intros (Ho & _) Hne. by rewrite Ho. Qed.

Lemma installs_class_lookup self names w w' n :
  installs self names w w' →
  class_lookup (w_props w' self) n = class_lookup (w_props w self) n.
Proof. intros (_ & Hv & Hm & _). unfold class_lookup. by rewrite Hv, Hm. Qed.

Lemma installs_slot self names w w' atr :
  installs self names w w' → atr ∉ names →
  p_slots (w_props w' self) !! ("_" +:+ atr)
  = p_slots (w_props w self) !! ("_" +:+ atr).
Proof.
  intros (_ & _ & _ & Hs & _) Hnin.
  destruct (Hs ("_" +:+ atr)) as [|(n & a & Hin & Heq & _)]; [done|].
  apply underscore_inj in Heq as ->. done.
Qed.

Lemma installs_public_slot self names w w' k :
  installs self names w w' → startswith_underscore k = false →
  p_slots (w_props w' self) !! k = p_slots (w_props w self) !! k.
Proof.
  intros (_ & _ & _ & Hs & _) Hk.
  destruct (Hs k) as [|(n & a & _ & -> & _)]; [done|].
  by rewrite startswith_underscore_cons in Hk.
Qed.

Lemma installs_lookup_plain_slot self names w w' atr :
  installs self names w w' → atr ∉ names →
  lookup_plain (w_props w' self) ("_" +:+ atr)
  = lookup_plain (w_props w self) ("_" +:+ atr).
Proof.
  intros Hi Hnin. unfold lookup_plain.
  rewrite (installs_slot _ _ _ _ _ Hi Hnin), (installs_class_lookup _ _ _ _ _ Hi).
  destruct Hi as (_ & Hv & _). unfold no_attribute. by rewrite Hv.
Qed.

Lemma installs_host self names w w' :
  installs self names w w' → "host" ∉ names →
  getattr_props (w_props w' self) "host" = getattr_props (w_props w self) "host".
Proof.
  intros Hi Hnin. unfold getattr_props.
  rewrite (installs_class_lookup _ _ _ _ _ Hi).
  change (class_lookup (w_props w self) "host") with (Some (MAccessor "_host")).
  by apply (installs_lookup_plain_slot self names w w' "host").
Qed.

End Transport.

(** ** duplicate-all *)

Section Duplicate.
Variable classes : cid → ext_class.

Lemma duplicate_of_Some w var a o f :
  duplicate_of classes w var = Some (a, o, f) ↔
  var = VRef a ∧ w_exts w !! a = Some o
  ∧ c_duplicate (classes (e_class o)) = Some f.
Proof.
  unfold duplicate_of. destruct var as [|a'|]; try naive_solver.
  destruct (w_exts w !! a') as [o'|] eqn:Ho; [|naive_solver].
  destruct (c_duplicate (classes (e_class o'))) as [f'|] eqn:Hf; naive_solver.
Qed.

(** What a round of duplicate-all that goes through has done. *)
Lemma duplicate_body_Ok self original atr w w' :
  _duplicate_extension_attr_body classes self original atr w = (Ok tt, w') →
  ∃ var, getattr_props (w_props w original) atr = Ok var ∧
    match duplicate_of classes w var with
    | None => w' = w
    | Some (a, o, f) =>
        ∃ host o', getattr_props (w_props w self) "host" = Ok host
          ∧ f (e_state o) host = Ok o'
          ∧ w_log w' = w_log w ++ [EDuplicate a host]
          ∧ w_exts w' = w_exts w ++ [o']
          ∧ p_slots (w_props w' self) !! ("_" +:+ atr)
            = Some (VRef (length (w_exts w)))
    end.
Proof.
  rewrite duplicate_body_run.
  destruct (getattr_props (w_props w original) atr) as [var|e]; [|done].
  intros Hrun. exists var. split; [done|].
  destruct (duplicate_of classes w var) as [[[a o] f]|]; [|by simplify_eq].
  simpl in Hrun.
  destruct (getattr_props (w_props w self) "host") as [host|e] eqn:Hh; [|done].
  destruct (f (e_state o) host) as [o'|e] eqn:Hf; [|done].
  destruct (setattr_props _ _ _) as [p'|e] eqn:Hset; [|done].
  apply setattr_props_Ok in Hset as ->. simplify_eq.
  exists host, o'. repeat split; try done. simpl.
  rewrite bool_decide_eq_true_2 by done. simpl. apply lookup_insert_eq.
Qed.

Lemma duplicate_loop self original attr : ∀ w w',
  self ≠ original → NoDup attr → "host" ∉ attr →
  (∀ atr var, atr ∈ attr →
     getattr_props (w_props w original) atr = Ok var → alive w var) →
  for_each attr (_duplicate_extension_attr_body classes self original) w
  = (Ok tt, w') →
  w_log w' = w_log w ++ duplicate_events classes w self original attr
  ∧ ∀ atr, atr ∈ attr →
      ∃ var, getattr_props (w_props w original) atr = Ok var ∧
        match duplicate_of classes w var with
        | None =>
            p_slots (w_props w' self) !! ("_" +:+ atr)
            = p_slots (w_props w self) !! ("_" +:+ atr)
        | Some (a, o, f) =>
            ∃ host o' a', getattr_props (w_props w self) "host" = Ok host
              ∧ f (e_state o) host = Ok o'
              ∧ p_slots (w_props w' self) !! ("_" +:+ atr) = Some (VRef a')
              ∧ w_exts w' !! a' = Some o'
              ∧ w_exts w !! a' = None
        end.
Proof.
  induction attr as [|atr0 rest IH]; intros w w' Hne Hnd Hhost Halive Hrun.
  { simpl in Hrun. unfold ret in Hrun. simplify_eq. simpl.
    rewrite app_nil_r. split; [done|]. by intros atr ?%elem_of_nil. }
  simpl in Hrun. unfold bind in Hrun.
  destruct (_duplicate_extension_attr_body classes self original atr0 w)
    as [[[]|e] w1] eqn:Hbody; [|done].
  apply NoDup_cons in Hnd as [Hnin Hnd].
  apply not_elem_of_cons in Hhost as [Hhost0 Hhost].
  pose proof (duplicate_body_installs _ _ _ _ _ _ _ Hbody) as Hstep.
  pose proof (for_each_installs self _
                (duplicate_body_installs classes self original) _ _ _ _ Hrun)
    as Htail.
  assert ("host" ∉ [atr0]) as Hhost1.
  { intros Heq%list_elem_of_singleton. congruence. }
  assert (∀ atr var, atr ∈ rest →
            getattr_props (w_props w1 original) atr = Ok var → alive w1 var)
    as Halive1.
  { intros atr var Hin Hget.
    rewrite (installs_other _ _ _ _ _ _ Hstep) in Hget by done.
    eapply installs_alive; [done|]. eapply Halive; [by right|done]. }
  destruct (IH w1 w' Hne Hnd Hhost Halive1 Hrun) as [Hlog Hall]. clear IH.
  (* what the rounds of the tail read is what they would read in [w] *)
  assert (∀ atr, atr ∈ rest →
            ∀ var, getattr_props (w_props w original) atr = Ok var →
              duplicate_of classes w1 var = duplicate_of classes w var) as Hcap.
  { intros atr Hin var Hget. eapply installs_duplicate_of; [done|].
    eapply Halive; [by right|done]. }
  pose proof (installs_host _ _ _ _ Hstep Hhost1) as Hh.
  assert (duplicate_events classes w1 self original rest
          = duplicate_events classes w self original rest) as Hevs.
  { unfold duplicate_events. apply list_omap_ext, Forall2_same_length_lookup.
    split; [done|]. intros i atr atr' Hi Hi'. simplify_eq.
    assert (atr ∈ rest) as Hin by (by eapply list_elem_of_lookup_2).
    rewrite (installs_other _ _ _ _ _ _ Hstep) by done.
    destruct (getattr_props (w_props w original) atr) as [var|] eqn:Hget;
      [|done].
    rewrite (Hcap atr Hin var Hget).
    destruct (duplicate_of classes w var) as [[[a o] f]|]; [|done].
    by rewrite Hh. }
  destruct (duplicate_body_Ok _ _ _ _ _ Hbody) as (var0 & Hget0 & Hround).
  split.
  - rewrite Hlog, Hevs. unfold duplicate_events at 2. cbn [omap list_omap].
    fold (duplicate_events classes w self original rest). rewrite Hget0.
    destruct (duplicate_of classes w var0) as [[[a o] f]|].
    + destruct Hround as (host & o' & -> & _ & -> & _). by rewrite <-app_assoc.
    + by subst w1.
  - intros atr [->|Hin]%elem_of_cons.
    + exists var0. split; [done|].
      destruct (duplicate_of classes w var0) as [[[a o] f]|].
      * destruct Hround as (host & o' & Hhost' & Hf & _ & Hx & Hslot).
        exists host, o', (length (w_exts w)). repeat split; try done.
        -- by rewrite (installs_slot _ _ _ _ _ Htail Hnin).
        -- rewrite (installs_lookup_ext _ _ _ _ _ Htail), Hx.
           ++ by rewrite list_lookup_middle.
           ++ rewrite Hx, length_app. simpl. lia.
        -- by apply lookup_ge_None.
      * subst w1. by rewrite (installs_slot _ _ _ _ _ Htail Hnin).
    + destruct (Hall atr Hin) as (var & Hget & Hatr).
      rewrite (installs_other _ _ _ _ _ _ Hstep) in Hget by done.
      exists var. split; [done|].
      rewrite (Hcap atr Hin var Hget) in Hatr.
      assert (atr ∉ [atr0]) as Hnin0.
      { intros Heq%list_elem_of_singleton. congruence. }
      destruct (duplicate_of classes w var) as [[[a o] f]|].
      * destruct Hatr as (host & o' & a' & Hhost' & Hf & Hslot & Hx & Hfresh).
        exists host, o', a'. rewrite <-Hh. repeat split; try done.
        destruct Hstep as (_ & _ & _ & _ & [news Hnews] & _).
        rewrite Hnews in Hfresh. apply lookup_ge_None in Hfresh.
        apply lookup_ge_None. rewrite length_app in Hfresh. lia.
      * by rewrite Hatr, (installs_slot _ _ _ _ _ Hstep Hnin0).
Qed.

Lemma extension_attr_props_no_host p : "host" ∉ extension_attr_props p.
Proof.
  intros (_ & Hres & _)%elem_of_extension_attr_props. apply Hres. left.
Qed.

(** C1, as the code has it: a duplicate-all that returns has read every
    enumerated name on the original object; the invocations it made are
    exactly one [duplicate(host)], with the host of [self], on each value of
    the original that has the capability, in enumeration order; the result
    of each is a new object stored on [self] in the slot ["_" + name]; for a
    name whose value has no [duplicate] that slot of [self] is as it was;
    and the other properties objects, the original among them, are
    untouched. *)
Theorem duplicate_reads_original self original w w' :
  self ≠ original → refs_alive w original →
  _duplicate_extension_attr classes self original w = (Ok tt, w') →
  w_log w' = w_log w ++ duplicate_events classes w self original
                          (extension_attr_props (w_props w self))
  ∧ (∀ o, o ≠ self → w_props w' o = w_props w o)
  ∧ ∀ atr, atr ∈ extension_attr_props (w_props w self) →
      ∃ var, getattr_props (w_props w original) atr = Ok var ∧
        match duplicate_of classes w var with
        | None =>
            p_slots (w_props w' self) !! ("_" +:+ atr)
            = p_slots (w_props w self) !! ("_" +:+ atr)
        | Some (a, o, f) =>
            ∃ host o' a', getattr_props (w_props w self) "host" = Ok host
              ∧ f (e_state o) host = Ok o'
              ∧ p_slots (w_props w' self) !! ("_" +:+ atr) = Some (VRef a')
              ∧ w_exts w' !! a' = Some o'
              ∧ w_exts w !! a' = None
        end.
Proof.
  intros Hne Halive Hrun.
  pose proof (duplicate_installs _ _ _ _ _ _ Hrun) as (Hothers & _).
  unfold _duplicate_extension_attr, extension_attr, read in Hrun.
  unfold bind at 1 in Hrun.
  apply duplicate_loop in Hrun as [Hlog Hall]; try done.
  - apply NoDup_extension_attr_props.
  - apply extension_attr_props_no_host.
  - intros atr var _ Hget. by eapply getattr_alive.
Qed.

End Duplicate.

(** ** deserialize-all and the round trip *)

Section RoundTrip.
Variable classes : cid → ext_class.

Lemma installs_lookup_plain_public self names w w' k :
  installs self names w w' → startswith_underscore k = false →
  lookup_plain (w_props w' self) k = lookup_plain (w_props w self) k.
Proof.
  intros Hi Hk. unfold lookup_plain.
  rewrite (installs_public_slot _ _ _ _ _ Hi Hk),
    (installs_class_lookup _ _ _ _ _ Hi).
  destruct Hi as (_ & Hv & _). unfold no_attribute. by rewrite Hv.
Qed.





Lemma Ok_inj {A} (a b : A) : Ok a = Ok b → a = b.
Proof. by intros [= ->]. Qed.

Lemma last_value_Some_elem ds k y :
  last_value ds k = Some y → ∃ d : dict, d ∈ ds ∧ d !! k = Some y.
Proof.
  unfold last_value. intros Hlast.
  assert (y ∈ omap (λ d : dict, d !! k) ds) as Hin.
  { apply last_Some in Hlast as [l ->]. apply elem_of_app. right. left. }
  apply list_elem_of_omap in Hin as (d & Hd & Hy). eauto.
Qed.

Lemma last_value_unique ds k x :
  (∃ d : dict, d ∈ ds ∧ d !! k = Some x) →
  (∀ (d : dict) y, d ∈ ds → d !! k = Some y → y = x) →
  last_value ds k = Some x.
Proof.
  intros (d & Hd & Hx) Huniq.
  destruct (last_value ds k) as [y|] eqn:Hlast.
  - apply last_value_Some_elem in Hlast as (d' & Hd' & Hy).
    by rewrite (Huniq d' y Hd' Hy).
  - rewrite last_value_None in Hlast. rewrite (Hlast d Hd) in Hx. done.
Qed.

Lemma installs_extension_attr_props self names w w' :
  installs self names w w' →
  extension_attr_props (w_props w' self) = extension_attr_props (w_props w self).
Proof.
  intros Hi. apply extension_attr_props_ext. intros x Hx.
  rewrite !elem_of_dir_props, (installs_public_slot _ _ _ _ _ Hi Hx).
  destruct Hi as (_ & -> & -> & _). done.
Qed.

Lemma extension_attr_props_public p atr :
  atr ∈ extension_attr_props p → startswith_underscore atr = false.
Proof. by intros (? & _)%elem_of_extension_attr_props. Qed.

End RoundTrip.

(** ** The enumerations and the reserved names *)

(** The comprehension shared by the operations of [_Properties] and by
    [apply_properties_from_dict] yields no reserved and no underscore name. *)
Lemma extension_attr_props_not_reserved p atr :
  atr ∈ extension_attr_props p →
  (atr ∉ _do_not_duplicate) ∧ startswith_underscore atr = false.
Proof. intros (? & ? & _)%elem_of_extension_attr_props. done. Qed.

Lemma elem_of_model_to_dict_attr_props p x :
  x ∈ model_to_dict_attr_props p ↔
  startswith_underscore x = false ∧ x ≠ "host" ∧ x ∈ dir_props p.
Proof.
  unfold model_to_dict_attr_props. rewrite list_elem_of_filter.
  rewrite andb_True, !negb_True, bool_decide_spec.
  destruct (startswith_underscore x); naive_solver.
Qed.

(** C6: the enumeration inside [ModelProperties.to_dict] filters with
    [atr != 'host'] where every other enumeration filters with
    [_do_not_duplicate]: on a model's properties without any extension it
    yields the reserved names ["ToString"] and ["to_dict"], which the
    enumeration of the other operations leaves out; and it yields them on
    every properties object. *)
Theorem ModelProperties_to_dict_enumerates_reserved_names :
  model_to_dict_attr_props Examples.model_bare
  = ["ToString"; "apply_properties_from_dict"; "to_dict"]
  ∧ extension_attr_props Examples.model_bare = ["apply_properties_from_dict"]
  ∧ ∀ p, "to_dict" ∈ model_to_dict_attr_props p
         ∧ "ToString" ∈ model_to_dict_attr_props p
         ∧ "to_dict" ∈ _do_not_duplicate ∧ "ToString" ∈ _do_not_duplicate.
Proof.
  split; [vm_compute; reflexivity|]. split; [vm_compute; reflexivity|].
  intros p. rewrite !elem_of_model_to_dict_attr_props, !elem_of_dir_props.
  repeat split; try done.
  - left. unfold core_names, core_methods. destruct (p_variant p); set_solver.
  - left. unfold core_names, core_methods, base_methods. set_solver.
  - set_solver.
  - set_solver.
Qed.

(** ** deserialize-all: missing keys and failures *)

Section Load.
Variable classes : cid → ext_class.


(** A key the map has: what [from_dict] raises leaves the round, unless it
    is a [KeyError], which the round takes for a missing key. *)
Lemma load_round_from_dict_raises self (D : dict) atr w var c f sub host e :
  getattr_props (w_props w self) atr = Ok var →
  from_dict_of classes w var = Some (c, f) →
  D !! atr = Some sub →
  getattr_props (w_props w self) "host" = Ok host →
  f sub host = Raise e →
  _load_extension_attr_from_dict_body classes self (DDict D) atr w
  = (if is_KeyError (exn_cls e) then Ok tt else Raise e,
     add_log w [EFromDict c sub host]).
Proof.
  intros Hget Hcap HD Hh Hf. rewrite load_body_run, Hget, Hcap.
  simpl. by rewrite HD, Hh, Hf.
Qed.

End Load.

(** C2: the input map has the key ["energy"], and the sub-map under it is
    malformed: it lacks the ["type"] entry that [from_dict] of the extension
    reads, so [from_dict] raises [KeyError].  deserialize-all invokes
    [from_dict] on that sub-map and returns normally all the same: the
    [except KeyError] written for a missing key of the input map takes the
    failure of [from_dict] too, and the extension keeps its value. *)
Theorem load_swallows_KeyError_of_from_dict :
  let w := Examples.world_of Examples.room_a Examples.room_a in
  let property_dict := DDict {[ "energy" := DDict ∅ ]} in
  let run :=
    _load_extension_attr_from_dict Examples.classes 0 property_dict w in
  subscript property_dict "energy" = Ok (DDict ∅)
  ∧ c_from_dict Examples.energy_class
    = Some (λ d _, match subscript d "type" with
                   | Ok _ => Ok (Ext 0 d)
                   | Raise e => Raise e
                   end)
  ∧ subscript (DDict ∅) "type" = Raise (Exn KeyError "'type'")
  ∧ fst run = Ok tt
  ∧ w_log (snd run) = [EFromDict 0 (DDict ∅) (VRef 0)]
  ∧ w_props (snd run) 0 = Examples.room_a
  ∧ getattr_props (w_props (snd run) 0) "energy" = Ok (VRef 1)
  ∧ w_exts (snd run) = w_exts w.
Proof. vm_compute. repeat split; reflexivity. Qed.

(** ** reset-all *)

Section Reset.
Variable classes : cid → ext_class.

Lemma reset_body_run self atr w :
  _reset_extension_attr_to_default_body classes self atr w =
  match getattr_props (w_props w self) atr with
  | Raise e => (Raise e, w)
  | Ok var =>
      match reset_of classes w var with
      | None => (Ok tt, w)
      | Some (a, o, f) =>
          match f (e_state o) with
          | Ok s =>
              (Ok tt,
               World (w_props w) (<[a := Ext (e_class o) s]> (w_exts w))
                     (w_log w ++ [EResetToDefault a]))
          | Raise e =>
              (Raise (if is_Exception (exn_cls e)
                      then failed_to_reset classes w var e else e),
               add_log w [EResetToDefault a])
          end
      end
  end.
Proof.
  unfold _reset_extension_attr_to_default_body, call_reset_to_default.
  unfold_run. unfold reset_of.
  destruct (getattr_props (w_props w self) atr) as [var|e]; [|done].
  destruct var as [|a|]; simpl; try done.
  destruct (w_exts w !! a) as [o|] eqn:Ho; simpl; [|done].
  unfold class_has.
  destruct (c_reset_to_default (classes (e_class o))) as [f|] eqn:Hf; simpl;
    [|done].
  rewrite ?Ho; simpl; rewrite ?Hf; simpl.
  destruct (f (e_state o)) as [s|e]; simpl; [done|].
  unfold failed_to_reset, str_in. rewrite ?Ho.
  by destruct (is_Exception (exn_cls e)).
Qed.

Lemma reset_of_Some w var a o f :
  reset_of classes w var = Some (a, o, f) ↔
  var = VRef a ∧ w_exts w !! a = Some o
  ∧ c_reset_to_default (classes (e_class o)) = Some f.
Proof.
  unfold reset_of. destruct var as [|a'|]; try naive_solver.
  destruct (w_exts w !! a') as [o'|] eqn:Ho; [|naive_solver].
  destruct (c_reset_to_default (classes (e_class o'))) as [f'|] eqn:Hf;
    naive_solver.
Qed.

(** What one round does, whatever its outcome: the properties objects stay,
    every object keeps its class, and only the object the round resets
    changes. *)
Lemma reset_body_frame self atr w r w' :
  _reset_extension_attr_to_default_body classes self atr w = (r, w') →
  w_props w' = w_props w
  ∧ (∀ b, e_class <$> w_exts w' !! b = e_class <$> w_exts w !! b)
  ∧ (∀ b, w_exts w' !! b = w_exts w !! b
          ∨ ∃ o f s, getattr_props (w_props w self) atr = Ok (VRef b)
              ∧ w_exts w !! b = Some o
              ∧ c_reset_to_default (classes (e_class o)) = Some f
              ∧ f (e_state o) = Ok s
              ∧ w_exts w' !! b = Some (Ext (e_class o) s))
  ∧ ∃ evs, w_log w' = w_log w ++ evs
      ∧ ∀ ev, ev ∈ evs →
          ∃ b o f, getattr_props (w_props w self) atr = Ok (VRef b)
            ∧ w_exts w !! b = Some o
            ∧ c_reset_to_default (classes (e_class o)) = Some f
            ∧ ev = EResetToDefault b.
Proof.
  rewrite reset_body_run.
  destruct (getattr_props (w_props w self) atr) as [var|e] eqn:Hget.
  2:{ intros [= <- <-]. repeat split; try done; [by left|].
      exists []. rewrite app_nil_r. split; [done|]. by intros ev ?%elem_of_nil. }
  destruct (reset_of classes w var) as [[[a o] f]|] eqn:Hcap.
  2:{ intros [= <- <-]. repeat split; try done; [by left|].
      exists []. rewrite app_nil_r. split; [done|]. by intros ev ?%elem_of_nil. }
  apply reset_of_Some in Hcap as (-> & Ho & Hf).
  destruct (f (e_state o)) as [s|e] eqn:Hs; intros [= <- <-]; simpl.
  - repeat split; try done.
    + intros b. destruct (decide (a = b)) as [<-|Hne].
      * rewrite list_lookup_insert_eq by (by eapply lookup_lt_Some).
        by rewrite Ho.
      * by rewrite list_lookup_insert_ne.
    + intros b. destruct (decide (a = b)) as [<-|Hne].
      * right. exists o, f, s. repeat split; try done.
        apply list_lookup_insert_eq. by eapply lookup_lt_Some.
      * left. by rewrite list_lookup_insert_ne.
    + exists [EResetToDefault a]. split; [done|].
      intros ev ->%list_elem_of_singleton. by exists a, o, f.
  - repeat split; try done; [by left|].
    exists [EResetToDefault a]. split; [done|].
    intros ev ->%list_elem_of_singleton. by exists a, o, f.
Qed.

(** What reset-all does to a world, whatever its outcome. *)
Lemma reset_loop self attr : ∀ w r w',
  for_each attr (_reset_extension_attr_to_default_body classes self) w = (r, w') →
  w_props w' = w_props w
  ∧ (∀ b, e_class <$> w_exts w' !! b = e_class <$> w_exts w !! b)
  ∧ (∀ b, (∀ atr o f, atr ∈ attr →
             getattr_props (w_props w self) atr = Ok (VRef b) →
             w_exts w !! b = Some o →
             c_reset_to_default (classes (e_class o)) = Some f → False) →
          w_exts w' !! b = w_exts w !! b)
  ∧ ∃ evs, w_log w' = w_log w ++ evs
      ∧ ∀ ev, ev ∈ evs →
          ∃ atr b o f, atr ∈ attr
            ∧ getattr_props (w_props w self) atr = Ok (VRef b)
            ∧ w_exts w !! b = Some o
            ∧ c_reset_to_default (classes (e_class o)) = Some f
            ∧ ev = EResetToDefault b.
Proof.
  induction attr as [|atr0 rest IH]; intros w r w' Hrun.
  { simpl in Hrun. unfold ret in Hrun. simplify_eq.
    repeat split; try done. exists []. rewrite app_nil_r.
    split; [done|]. by intros ev ?%elem_of_nil. }
  simpl in Hrun. unfold bind in Hrun.
  destruct (_reset_extension_attr_to_default_body classes self atr0 w)
    as [r0 w1] eqn:Hbody.
  destruct (reset_body_frame _ _ _ _ _ Hbody)
    as (Hp1 & Hc1 & Hx1 & evs1 & Hl1 & He1).
  assert (∀ ev, ev ∈ evs1 →
            ∃ atr b o f, atr ∈ atr0 :: rest
              ∧ getattr_props (w_props w self) atr = Ok (VRef b)
              ∧ w_exts w !! b = Some o
              ∧ c_reset_to_default (classes (e_class o)) = Some f
              ∧ ev = EResetToDefault b) as He1'.
  { intros ev Hev. destruct (He1 ev Hev) as (b & o & f & ? & ? & ? & ?).
    exists atr0, b, o, f. repeat split; try done. left. }
  assert (∀ b, (∀ atr o f, atr ∈ atr0 :: rest →
                  getattr_props (w_props w self) atr = Ok (VRef b) →
                  w_exts w !! b = Some o →
                  c_reset_to_default (classes (e_class o)) = Some f → False) →
               w_exts w1 !! b = w_exts w !! b) as Hx1'.
  { intros b Hnot. destruct (Hx1 b) as [|(o & f & s & Hg & Ho & Hf & _)];
      [done|].
    destruct (Hnot atr0 o f); try done. left. }
  destruct r0 as [[]|e].
  2:{ simplify_eq. repeat split; try done. by exists evs1. }
  destruct (IH _ _ _ Hrun) as (Hp2 & Hc2 & Hx2 & evs2 & Hl2 & He2).
  rewrite Hp1 in *.
  repeat split; try done.
  - intros b. by rewrite Hc2, Hc1.
  - intros b Hnot. rewrite Hx2, Hx1'; try done.
    intros atr o1 f Hin Hget Ho1 Hf.
    pose proof (Hc1 b) as Hcb. rewrite Ho1 in Hcb. simpl in Hcb.
    destruct (w_exts w !! b) as [o|] eqn:Ho; [|done]. simpl in Hcb.
    apply (Hnot atr o f); try done; [by right|]. congruence.
  - exists (evs1 ++ evs2). rewrite Hl2, Hl1, app_assoc. split; [done|].
    intros ev [Hev|Hev]%elem_of_app; [by apply He1'|].
    destruct (He2 ev Hev) as (atr & b & o1 & f & Hin & Hget & Ho1 & Hf & ->).
    pose proof (Hc1 b) as Hcb. rewrite Ho1 in Hcb. simpl in Hcb.
    destruct (w_exts w !! b) as [o|] eqn:Ho; [|done]. simpl in Hcb.
    exists atr, b, o, f. repeat split; try done; [by right|]. congruence.
Qed.

(** If reset-all returns, every enumerated name could be read. *)
Lemma reset_loop_Ok_reads self attr : ∀ w w',
  for_each attr (_reset_extension_attr_to_default_body classes self) w
  = (Ok tt, w') →
  ∀ atr, atr ∈ attr → ∃ v, getattr_props (w_props w self) atr = Ok v.
Proof.
  induction attr as [|atr0 rest IH]; intros w w' Hrun atr Hin.
  { by apply elem_of_nil in Hin. }
  simpl in Hrun. unfold bind in Hrun.
  destruct (_reset_extension_attr_to_default_body classes self atr0 w)
    as [[[]|e] w1] eqn:Hbody; [|done].
  apply elem_of_cons in Hin as [->|Hin].
  - rewrite reset_body_run in Hbody.
    destruct (getattr_props (w_props w self) atr0); [eauto|done].
  - destruct (reset_body_frame _ _ _ _ _ Hbody) as (Hp1 & _).
    destruct (IH _ _ Hrun atr Hin) as [v Hv]. rewrite Hp1 in Hv. eauto.
Qed.

(** An object that is at a fixed point of its [reset_to_default] stays
    there through the loop, whatever the outcome. *)
Lemma reset_loop_fixed self attr : ∀ w r w' b o f,
  resets_idempotent classes →
  for_each attr (_reset_extension_attr_to_default_body classes self) w = (r, w') →
  w_exts w !! b = Some o →
  c_reset_to_default (classes (e_class o)) = Some f →
  f (e_state o) = Ok (e_state o) →
  ∃ o', w_exts w' !! b = Some o' ∧ e_class o' = e_class o
        ∧ f (e_state o') = Ok (e_state o').
Proof.
  induction attr as [|atr0 rest IH]; intros w r w' b o f Hid Hrun Ho Hf Hfix.
  { simpl in Hrun. unfold ret in Hrun. simplify_eq. eauto. }
  simpl in Hrun. unfold bind in Hrun.
  destruct (_reset_extension_attr_to_default_body classes self atr0 w)
    as [r0 w1] eqn:Hbody.
  destruct (reset_body_frame _ _ _ _ _ Hbody) as (_ & _ & Hx1 & _).
  assert (∃ o1, w_exts w1 !! b = Some o1 ∧ e_class o1 = e_class o
                ∧ f (e_state o1) = Ok (e_state o1)) as (o1 & Ho1 & Hc1 & Hfix1).
  { destruct (Hx1 b) as [Heq|(o0 & f0 & s & _ & Ho0 & Hf0 & Hs & Hnew)].
    - exists o. by rewrite Heq.
    - rewrite Ho in Ho0. apply Some_inj in Ho0 as <-.
      rewrite Hf in Hf0. apply Some_inj in Hf0 as <-.
      rewrite Hfix in Hs. apply Ok_inj in Hs as <-.
      exists (Ext (e_class o) (e_state o)). done. }
  destruct r0 as [[]|e].
  - eapply IH in Hrun as (o' & ? & ? & ?); try done; [|by rewrite Hc1].
    exists o'. repeat split; try done. congruence.
  - simplify_eq. eauto.
Qed.

(** After a reset-all that returned, every object it works on is at a fixed
    point of its [reset_to_default]. *)
Lemma reset_loop_reaches_fixed self attr : ∀ w w',
  resets_idempotent classes →
  for_each attr (_reset_extension_attr_to_default_body classes self) w
  = (Ok tt, w') →
  ∀ atr b o f, atr ∈ attr →
    getattr_props (w_props w self) atr = Ok (VRef b) →
    w_exts w !! b = Some o →
    c_reset_to_default (classes (e_class o)) = Some f →
    ∃ o', w_exts w' !! b = Some o' ∧ e_class o' = e_class o
          ∧ f (e_state o') = Ok (e_state o').
Proof.
  induction attr as [|atr0 rest IH]; intros w w' Hid Hrun atr b o f Hin Hget Ho Hf.
  { by apply elem_of_nil in Hin. }
  simpl in Hrun. unfold bind in Hrun.
  destruct (_reset_extension_attr_to_default_body classes self atr0 w)
    as [[[]|e] w1] eqn:Hbody; [|done].
  destruct (reset_body_frame _ _ _ _ _ Hbody) as (Hp1 & Hc1 & _).
  apply elem_of_cons in Hin as [->|Hin].
  - rewrite reset_body_run, Hget in Hbody.
    assert (reset_of classes w (VRef b) = Some (b, o, f)) as Hcap
      by by apply reset_of_Some.
    rewrite Hcap in Hbody.
    destruct (f (e_state o)) as [s|e] eqn:Hs; [|done]. simplify_eq.
    eapply (reset_loop_fixed self rest _ _ _ b (Ext (e_class o) s) f) in Hrun
      as (o' & ? & ? & ?); try done.
    + eauto.
    + simpl. apply list_lookup_insert_eq. by eapply lookup_lt_Some.
    + simpl. by eapply Hid.
  - pose proof (Hc1 b) as Hcb. rewrite Ho in Hcb. simpl in Hcb.
    destruct (w_exts w1 !! b) as [o1|] eqn:Ho1; [|done]. simpl in Hcb.
    destruct (IH _ _ Hid Hrun atr b o1 f Hin) as (o' & ? & ? & ?); try done.
    + by rewrite Hp1.
    + congruence.
    + exists o'. repeat split; try done. congruence.
Qed.

(** On a world where every object it works on is at a fixed point,
    reset-all returns and leaves the heap as it is. *)
Lemma reset_loop_on_fixed self attr : ∀ w,
  (∀ atr, atr ∈ attr → ∃ v, getattr_props (w_props w self) atr = Ok v) →
  (∀ atr b o f, atr ∈ attr →
     getattr_props (w_props w self) atr = Ok (VRef b) →
     w_exts w !! b = Some o →
     c_reset_to_default (classes (e_class o)) = Some f →
     f (e_state o) = Ok (e_state o)) →
  ∃ w', for_each attr (_reset_extension_attr_to_default_body classes self) w
        = (Ok tt, w')
        ∧ w_props w' = w_props w ∧ w_exts w' = w_exts w.
Proof.
  induction attr as [|atr0 rest IH]; intros w Hread Hfix.
  { exists w. done. }
  assert (∃ w1, _reset_extension_attr_to_default_body classes self atr0 w
                = (Ok tt, w1)
                ∧ w_props w1 = w_props w ∧ w_exts w1 = w_exts w)
    as (w1 & Hbody & Hp1 & Hx1).
  { rewrite reset_body_run. destruct (Hread atr0) as [v Hv]; [left|].
    rewrite Hv. destruct (reset_of classes w v) as [[[a o] f]|] eqn:Hcap;
      [|by exists w].
    apply reset_of_Some in Hcap as (-> & Ho & Hf).
    rewrite (Hfix atr0 a o f); try done; [|left].
    eexists. split; [done|]. simpl. split; [done|].
    destruct o as [c s]. simpl. by apply list_insert_id. }
  destruct (IH w1) as (w' & Hrun & Hp & Hx).
  - intros atr Hin. rewrite Hp1. apply Hread. by right.
  - intros atr b o f Hin. rewrite Hp1, Hx1. apply Hfix. by right.
  - exists w'. simpl. unfold bind. rewrite Hbody.
    repeat split; try done; congruence.
Qed.

(** X1: reset-all touches nothing but the objects it works on: the properties
    objects stay, every object of the heap keeps its class, an object that
    is not the value of an enumerated attribute with [reset_to_default] is
    as it was, and the only invocations are [reset_to_default()] on such
    values.  This holds whatever the outcome. *)
Theorem reset_isolation self w r w' :
  _reset_extension_attr_to_default classes self w = (r, w') →
  w_props w' = w_props w
  ∧ (∀ b, e_class <$> w_exts w' !! b = e_class <$> w_exts w !! b)
  ∧ (∀ b, ¬ reset_target classes w self b → w_exts w' !! b = w_exts w !! b)
  ∧ ∃ evs, w_log w' = w_log w ++ evs
      ∧ ∀ ev, ev ∈ evs →
          ∃ b, ev = EResetToDefault b ∧ reset_target classes w self b.
Proof.
  intros Hrun. unfold _reset_extension_attr_to_default, extension_attr, read in Hrun.
  unfold bind at 1 in Hrun.
  destruct (reset_loop _ _ _ _ _ Hrun) as (Hp & Hc & Hx & evs & Hl & He).
  repeat split; try done.
  - intros b Hnot. apply Hx. intros atr o f Hin Hget Ho Hf.
    apply Hnot. by exists atr, o, f.
  - exists evs. split; [done|]. intros ev Hev.
    destruct (He ev Hev) as (atr & b & o & f & ? & ? & ? & ? & ->).
    exists b. split; [done|]. by exists atr, o, f.
Qed.

(** X2: Where every [reset_to_default] is idempotent, so is reset-all: after a
    reset-all that returned, a second one returns too and leaves the
    properties objects and the heap exactly as the first one left them. *)
Theorem reset_twice self w w1 :
  resets_idempotent classes →
  _reset_extension_attr_to_default classes self w = (Ok tt, w1) →
  ∃ w2, _reset_extension_attr_to_default classes self w1 = (Ok tt, w2)
        ∧ w_props w2 = w_props w1 ∧ w_exts w2 = w_exts w1.
Proof.
  intros Hid Hrun.
  unfold _reset_extension_attr_to_default, extension_attr, read in *.
  unfold bind at 1 in Hrun. unfold bind at 1.
  destruct (reset_loop _ _ _ _ _ Hrun) as (Hp & Hc & _).
  apply reset_loop_on_fixed.
  - intros atr Hin. rewrite Hp in *. by eapply reset_loop_Ok_reads.
  - intros atr b o1 f Hin Hget Ho1 Hf. rewrite Hp in Hget, Hin.
    pose proof (Hc b) as Hcb. rewrite Ho1 in Hcb. simpl in Hcb.
    destruct (w_exts w !! b) as [o|] eqn:Ho; [|done]. simpl in Hcb.
    destruct (reset_loop_reaches_fixed _ _ _ _ Hid Hrun atr b o f)
      as (o' & Ho' & _ & Hfix); try done; [congruence|].
    rewrite Ho1 in Ho'. by simplify_eq.
Qed.

End Reset.

(** ** prefix-all and reset-all: effect and failure *)


Section PrefixEffect.

Variable classes : cid → ext_class.

Lemma elem_of_add_prefix_targets w self attr a :
  a ∈ add_prefix_targets classes w self attr ↔
  ∃ atr o f, atr ∈ attr
    ∧ getattr_props (w_props w self) atr = Ok (VRef a)
    ∧ w_exts w !! a = Some o
    ∧ c_add_prefix (classes (e_class o)) = Some f.
Proof.
  unfold add_prefix_targets. rewrite list_elem_of_omap. split.
  - intros (atr & Hin & Hsome).
    destruct (getattr_props (w_props w self) atr) as [var|] eqn:Hget; [|done].
    destruct (add_prefix_of classes w var) as [[[a' o] f]|] eqn:Hcap; [|done].
    apply Some_inj in Hsome as ->.
    apply add_prefix_of_Some in Hcap as (-> & Ho & Hf).
    by exists atr, o, f.
  - intros (atr & o & f & Hin & Hget & Ho & Hf).
    exists atr. split; [done|]. rewrite Hget.
    assert (add_prefix_of classes w (VRef a) = Some (a, o, f)) as ->
      by by apply add_prefix_of_Some.
    done.
Qed.

(** The targets are read off the properties objects and the classes of the
    heap objects. *)
Lemma add_prefix_targets_eq w w1 self attr :
  w_props w1 = w_props w →
  (∀ b, e_class <$> w_exts w1 !! b = e_class <$> w_exts w !! b) →
  add_prefix_targets classes w1 self attr
  = add_prefix_targets classes w self attr.
Proof.
  intros Hp Hc. unfold add_prefix_targets. rewrite Hp.
  apply list_omap_ext. apply Forall2_same_length_lookup.
  split; [done|]. intros i atr atr' Hi Hi'. rewrite Hi in Hi'.
  apply Some_inj in Hi' as <-.
  destruct (getattr_props (w_props w self) atr) as [var|]; [|done].
  destruct var as [d|a|n]; try done. unfold add_prefix_of.
  pose proof (Hc a) as Hca.
  destruct (w_exts w1 !! a) as [o1|], (w_exts w !! a) as [o|];
    simpl in Hca; try done.
  apply Some_inj in Hca. rewrite Hca.
  by destruct (c_add_prefix (classes (e_class o))).
Qed.

Lemma add_prefix_loop_effect self prefix attr : ∀ w w',
  for_each attr (_add_prefix_extension_attr_body classes self prefix) w
  = (Ok tt, w') →
  NoDup (add_prefix_targets classes w self attr) →
  (∀ a, a ∉ add_prefix_targets classes w self attr →
        w_exts w' !! a = w_exts w !! a)
  ∧ (∀ a o f, a ∈ add_prefix_targets classes w self attr →
       w_exts w !! a = Some o →
       c_add_prefix (classes (e_class o)) = Some f →
       ∃ s, f (e_state o) prefix = Ok s
            ∧ w_exts w' !! a = Some (Ext (e_class o) s)).
Proof.
  induction attr as [|atr0 rest IH]; intros w w' Hrun Hnd.
  { simpl in Hrun. unfold ret in Hrun. apply (f_equal snd) in Hrun.
    simpl in Hrun. subst w'. split; [done|].
    intros a o f Hin. by apply elem_of_nil in Hin. }
  simpl in Hrun. unfold bind in Hrun.
  destruct (_add_prefix_extension_attr_body classes self prefix atr0 w)
    as [[[]|e] w1] eqn:Hbody; [|done].
  rewrite add_prefix_body_run in Hbody.
  unfold add_prefix_targets in Hnd |- *. simpl in Hnd |- *.
  destruct (getattr_props (w_props w self) atr0) as [var|] eqn:Hget; [|done].
  destruct (add_prefix_of classes w var) as [[[a0 o0] f0]|] eqn:Hcap.
  2:{ apply (f_equal snd) in Hbody. simpl in Hbody. subst w1.
      by apply IH. }
  destruct (f0 (e_state o0) prefix) as [s0|] eqn:Hs0; [|done].
  apply (f_equal snd) in Hbody. simpl in Hbody.
  apply add_prefix_of_Some in Hcap as (-> & Ho0 & Hf0).
  apply NoDup_cons in Hnd as [Hnot Hnd].
  assert (add_prefix_targets classes w1 self rest
          = add_prefix_targets classes w self rest) as Heq.
  { apply add_prefix_targets_eq; subst w1; simpl; [done|].
    intros b. destruct (decide (b = a0)) as [->|Hne].
    - rewrite list_lookup_insert_eq by by eapply lookup_lt_Some.
      by rewrite Ho0.
    - by rewrite list_lookup_insert_ne. }
  unfold add_prefix_targets in Heq.
  destruct (IH _ _ Hrun) as [Hout Hin].
  { unfold add_prefix_targets. by rewrite Heq. }
  unfold add_prefix_targets in Hout, Hin. rewrite Heq in Hout, Hin.
  assert (w_exts w1 !! a0 = Some (Ext (e_class o0) s0)) as H10.
  { subst w1. simpl. apply list_lookup_insert_eq. by eapply lookup_lt_Some. }
  assert (∀ a, a ≠ a0 → w_exts w1 !! a = w_exts w !! a) as H1ne.
  { intros a Hne. subst w1. simpl. by apply list_lookup_insert_ne. }
  split.
  - intros a Ha. apply not_elem_of_cons in Ha as [Hne Ha].
    by rewrite Hout, H1ne.
  - intros a o f Ha Ho Hf. apply elem_of_cons in Ha as [->|Ha].
    + rewrite Ho0 in Ho. apply Some_inj in Ho as <-.
      rewrite Hf0 in Hf. apply Some_inj in Hf as <-.
      exists s0. split; [done|]. by rewrite Hout.
    + assert (a ≠ a0) as Hne by (intros ->; done).
      apply (Hin a o f Ha); [|done]. by rewrite H1ne.
Qed.

(** X3: What prefix-all has done when it returns, the objects it works on being
    distinct: each of them has the state its own [add_prefix] made of its
    state before the call, and every other object of the heap, capable of
    [add_prefix] or not, is as it was. *)
Theorem add_prefix_effect self prefix w w' :
  _add_prefix_extension_attr classes self prefix w = (Ok tt, w') →
  NoDup (add_prefix_targets classes w self
           (extension_attr_props (w_props w self))) →
  w_props w' = w_props w
  ∧ (∀ atr a o f,
       atr ∈ extension_attr_props (w_props w self) →
       getattr_props (w_props w self) atr = Ok (VRef a) →
       w_exts w !! a = Some o →
       c_add_prefix (classes (e_class o)) = Some f →
       ∃ s, f (e_state o) prefix = Ok s
            ∧ w_exts w' !! a = Some (Ext (e_class o) s))
  ∧ (∀ a, a ∉ add_prefix_targets classes w self
                (extension_attr_props (w_props w self)) →
          w_exts w' !! a = w_exts w !! a).
Proof.
  intros Hrun Hnd.
  unfold _add_prefix_extension_attr, extension_attr, read in Hrun.
  unfold bind at 1 in Hrun.
  destruct (add_prefix_loop _ _ _ _ _ _ _ Hrun) as (Hp & _).
  destruct (add_prefix_loop_effect _ _ _ _ _ Hrun Hnd) as [Hout Hin].
  repeat split; try done.
  intros atr a o f Hatr Hget Ho Hf. apply (Hin a o f); try done.
  apply elem_of_add_prefix_targets. by exists atr, o, f.
Qed.

End PrefixEffect.

Section ResetFailure.

Variable classes : cid → ext_class.


End ResetFailure.

(** ** [ModelProperties.apply_properties_from_dict] *)





(** Every properties object enumerates a name: the public methods of its own
    class are among the names. *)
Lemma extension_attr_props_own_methods p :
  match p_variant p with
  | Model => "apply_properties_from_dict" ∈ extension_attr_props p
  | _ => "add_prefix" ∈ extension_attr_props p
         ∧ "reset_to_default" ∈ extension_attr_props p
  end.
Proof.
  assert (∀ x, x ∈ core_names (p_variant p) →
               startswith_underscore x = false → (x ∉ _do_not_duplicate) →
               x ∈ extension_attr_props p) as Hin.
  { intros x Hx Hu Hr. apply elem_of_extension_attr_props.
    repeat split; try done. apply elem_of_dir_props. by left. }
  destruct (p_variant p) eqn:Hv; try split; apply Hin; rewrite ?Hv;
    try reflexivity;
    try (refine (bool_decide_unpack _ _); vm_compute; exact I).
Qed.

Lemma extension_attr_props_nonempty p :
  ∃ x rest, extension_attr_props p = x :: rest.
Proof.
  pose proof (extension_attr_props_own_methods p) as H.
  destruct (extension_attr_props p) as [|x rest]; [|eauto].
  destruct (p_variant p); try destruct H as [H _]; by apply elem_of_nil in H.
Qed.

Section Apply.

Variable appliers : cid → option (addr → data → list ext → outcome unit * list ext).

(** One round of the loop of [apply_properties_from_dict]. *)
Lemma apply_body_run self d atr w :
  apply_properties_from_dict_body appliers self d atr w =
  match subscript d "properties" with
  | Raise e => (Raise e, w)
  | Ok properties =>
      match contains properties atr with
      | Raise e => (Raise e, w)
      | Ok false => (Ok tt, w)
      | Ok true =>
          match getattr_props (w_props w self) atr with
          | Raise e => (Raise e, w)
          | Ok var =>
              match applier_of appliers w var with
              | None => (Ok tt, w)
              | Some (a, f) =>
                  match f a d (w_exts w) with
                  | (Ok u, exts) => (Ok u, World (w_props w) exts (w_log w))
                  | (Raise e, exts) =>
                      (Raise (if is_Exception (exn_cls e)
                              then failed_to_apply atr e else e),
                       World (w_props w) exts (w_log w))
                  end
              end
          end
      end
  end.
Proof.
  unfold apply_properties_from_dict_body, hasattr_apply,
    call_apply_properties_from_dict.
  unfold_run.
  destruct (subscript d "properties") as [properties|]; [|done].
  destruct (contains properties atr) as [[]|]; try done. simpl.
  destruct (getattr_props (w_props w self) atr) as [var|]; [|done].
  unfold applier_of.
  destruct var as [x|a|n]; try done.
  destruct (w_exts w !! a) as [o|] eqn:Ho; [|done].
  destruct (appliers (e_class o)) as [f|] eqn:Hf; [|done]. simpl.
  rewrite ?Ho. simpl. rewrite ?Hf.
  destruct (f a d (w_exts w)) as [[u|e] exts]; [done|].
  simpl. by destruct (is_Exception (exn_cls e)).
Qed.




End Apply.

(** ** duplicate-all and deserialize-all: what they leave alone *)

Section Install.

Variable classes : cid → ext_class.

(** Each operation is its loop over the names [self] enumerates. *)
Lemma load_run self pd w :
  _load_extension_attr_from_dict classes self pd w
  = for_each (extension_attr_props (w_props w self))
      (_load_extension_attr_from_dict_body classes self pd) w.
Proof. done. Qed.

Lemma duplicate_run self original w :
  _duplicate_extension_attr classes self original w
  = for_each (extension_attr_props (w_props w self))
      (_duplicate_extension_attr_body classes self original) w.
Proof. done. Qed.



Lemma load_body_key self D D' atr w :
  D !! atr = D' !! atr →
  _load_extension_attr_from_dict_body classes self (DDict D) atr w
  = _load_extension_attr_from_dict_body classes self (DDict D') atr w.
Proof.
  intros Heq. rewrite !load_body_run. unfold subscript. by rewrite Heq.
Qed.

Lemma load_loop_keys self D D' attr : ∀ w,
  (∀ atr, atr ∈ attr → D !! atr = D' !! atr) →
  for_each attr (_load_extension_attr_from_dict_body classes self (DDict D)) w
  = for_each attr (_load_extension_attr_from_dict_body classes self (DDict D')) w.
Proof.
  induction attr as [|atr rest IH]; intros w Heq; [done|].
  simpl. unfold bind. rewrite (load_body_key self D D') by (apply Heq; left).
  destruct (_load_extension_attr_from_dict_body classes self (DDict D') atr w)
    as [[[]|e] w1]; [|done].
  apply IH. intros atr' Hin. apply Heq. by right.
Qed.

(** X8: deserialize-all reads the entries of the enumerated names and no other:
    two maps that agree on every enumerated name of [self] have the same
    outcome and leave the same world. *)
Theorem load_ignores_other_keys self D D' w :
  (∀ atr, atr ∈ extension_attr_props (w_props w self) →
          D !! atr = D' !! atr) →
  _load_extension_attr_from_dict classes self (DDict D) w
  = _load_extension_attr_from_dict classes self (DDict D') w.
Proof.
  intros Heq. rewrite !load_run. by apply load_loop_keys.
Qed.






End Install.

(** ** The enumeration, and serialization as a reader *)

(** A method of the class that the instance does not shadow reads as a bound
    method. *)
Lemma getattr_props_method p name :
  name ∈ core_methods (p_variant p) → p_slots p !! name = None →
  getattr_props p name = Ok (VMethod name).
Proof.
  intros Hin Hslot.
  assert (name ≠ "host") as Hne.
  { intros ->. revert Hin. destruct (p_variant p);
      refine (bool_decide_unpack _ _); vm_compute; exact I. }
  unfold getattr_props, lookup_plain, class_lookup.
  rewrite (bool_decide_eq_false_2 _ Hne), (bool_decide_eq_true_2 _ Hin).
  by rewrite Hslot.
Qed.

Section Serialize.

Variable classes : cid → ext_class.

Lemma to_dict_names_add_log v w evs self include :
  to_dict_names v (add_log w evs) self include = to_dict_names v w self include.
Proof. by destruct v, include. Qed.

(** X15: Serialization reads and never writes: [to_dict] of any variant, with
    any arguments and whatever its outcome, leaves the properties objects
    and the heap as they were (the invocations it made apart), and calling it
    again on the world it left gives the same outcome. *)
Theorem to_dict_reads_only v self abridged include w :
  let run := to_dict classes v self abridged include w in
  w_props (snd run) = w_props w
  ∧ w_exts (snd run) = w_exts w
  ∧ (∃ evs, w_log (snd run) = w_log w ++ evs
            ∧ ∀ ev, ev ∈ evs → ∃ a, ev = EToDict a (to_dict_arg v abridged))
  ∧ fst (to_dict classes v self abridged include (snd run)) = fst run.
Proof.
  cbv zeta. rewrite !to_dict_run, !to_dict_loop_trace. simpl.
  repeat split.
  - eexists. split; [done|]. intros ev Hev.
    apply to_dict_trace_events in Hev as (_ & _ & a & _ & _ & _ & _ & ->).
    by exists a.
  - by rewrite to_dict_names_add_log, to_dict_trace_add_log.
Qed.

(** The methods an unshadowed [to_dict] and [ToString] read as are skipped
    by the serialization loop. *)
Lemma to_dict_trace_filter w self abridged (l : list string) : ∀ base,
  p_slots (w_props w self) !! "to_dict" = None →
  p_slots (w_props w self) !! "ToString" = None →
  to_dict_trace classes w self
    (filter (λ atr, negb (startswith_underscore atr)
                    && negb (bool_decide (atr = "host"))) l) base abridged
  = to_dict_trace classes w self
      (filter (λ atr, negb (startswith_underscore atr)
                      && negb (bool_decide (atr ∈ _do_not_duplicate))) l)
      base abridged.
Proof.
  intros base Hd Hs. revert base.
  induction l as [|x l IH]; intros base; [done|].
  rewrite !filter_cons.
  destruct (startswith_underscore x) eqn:Hu; simpl; [apply IH|].
  destruct (decide (x = "host")) as [->|Hne].
  { simpl. apply IH. }
  rewrite (bool_decide_eq_false_2 _ Hne).
  destruct (decide (x ∈ _do_not_duplicate)) as [Hr|Hr].
  - rewrite (bool_decide_eq_true_2 _ Hr). simpl.
    assert (getattr_props (w_props w self) x = Ok (VMethod x)) as Hget.
    { unfold _do_not_duplicate in Hr.
      apply elem_of_cons in Hr as [->|Hr]; [done|].
      apply elem_of_cons in Hr as [->|Hr].
      - apply getattr_props_method; [|done].
        destruct (p_variant (w_props w self));
          apply (bool_decide_unpack _); vm_compute; exact I.
      - apply list_elem_of_singleton in Hr as ->.
        apply getattr_props_method; [|done].
        destruct (p_variant (w_props w self));
          apply (bool_decide_unpack _); vm_compute; exact I. }
    rewrite Hget. simpl. apply IH.
  - rewrite (bool_decide_eq_false_2 _ Hr). simpl.
    destruct (getattr_props (w_props w self) x) as [var|]; [|done].
    destruct (to_dict_of classes w var abridged) as [[a [d|e]]|]; try done.
    by rewrite IH.
Qed.

(** X16: [ModelProperties.to_dict] filters [dir(self)] by [atr != 'host'] where
    the other operations filter by [_do_not_duplicate]; as long as the
    instance does not shadow the methods [to_dict] and [ToString], this
    makes no difference to what the call does: with [include=None] it has
    the outcome, and makes the invocations, of the call with the names the
    other operations enumerate. *)
Theorem ModelProperties_to_dict_filter_harmless self w :
  p_slots (w_props w self) !! "to_dict" = None →
  p_slots (w_props w self) !! "ToString" = None →
  ModelProperties_to_dict classes self None w
  = ModelProperties_to_dict classes self
      (Some (extension_attr_props (w_props w self))) w.
Proof.
  intros Hd Hs. rewrite !ModelProperties_to_dict_run, !to_dict_loop_trace.
  unfold model_selected, model_to_dict_attr_props, extension_attr_props.
  by rewrite to_dict_trace_filter.
Qed.

End Serialize.

(** ** deserialize-all: what it installs *)

Lemma getattr_props_raises p n e :
  getattr_props p n = Raise e → exn_cls e = AttributeError.
Proof.
  unfold getattr_props, lookup_plain.
  repeat case_match; intros Hr; try done; by inversion Hr.
Qed.

Lemma setattr_props_raises p n v e :
  setattr_props p n v = Raise e → exn_cls e = AttributeError.
Proof.
  unfold setattr_props. repeat case_match; intros Hr; try done; by inversion Hr.
Qed.

Section LoadEffect.

Variable classes : cid → ext_class.

(** An attribute that is a plain member, or an accessor over its own
    underscore slot, reads the same after other names were installed. *)
Lemma installs_getattr_own self names w w' atr :
  installs self names w w' → atr ∉ names →
  startswith_underscore atr = false →
  (∀ slot, class_lookup (w_props w self) atr = Some (MAccessor slot) →
           slot = "_" +:+ atr) →
  getattr_props (w_props w' self) atr = getattr_props (w_props w self) atr.
Proof.
  intros Hi Hnin Hu Hown. unfold getattr_props.
  rewrite (installs_class_lookup _ _ _ _ atr Hi).
  destruct (class_lookup (w_props w self) atr) as [[slot| |v]|] eqn:Hc;
    try by eapply installs_lookup_plain_public.
  rewrite (Hown slot eq_refl). by eapply installs_lookup_plain_slot.
Qed.

Lemma load_body_Ok self D atr w w' :
  _load_extension_attr_from_dict_body classes self (DDict D) atr w
  = (Ok tt, w') →
  ∃ var, getattr_props (w_props w self) atr = Ok var ∧
    match from_dict_of classes w var, D !! atr with
    | Some (c, f), Some sub =>
        ∃ host, getattr_props (w_props w self) "host" = Ok host ∧
          match f sub host with
          | Ok o' =>
              w_exts w' = w_exts w ++ [o']
              ∧ p_slots (w_props w' self) !! ("_" +:+ atr)
                = Some (VRef (length (w_exts w)))
          | Raise e =>
              exn_cls e = KeyError ∧ w' = add_log w [EFromDict c sub host]
          end
    | _, _ => w' = w
    end.
Proof.
  rewrite load_body_run.
  destruct (getattr_props (w_props w self) atr) as [var|e]; [|done].
  intros Hrun. exists var. split; [done|].
  destruct (from_dict_of classes w var) as [[c f]|];
    [|by apply (f_equal snd) in Hrun].
  simpl in Hrun. destruct (D !! atr) as [sub|];
    [|by apply (f_equal snd) in Hrun].
  destruct (getattr_props (w_props w self) "host") as [host|e] eqn:Hh.
  2:{ apply getattr_props_raises in Hh. by rewrite Hh in Hrun. }
  exists host. split; [done|].
  destruct (f sub host) as [o'|e] eqn:Hf.
  - destruct (setattr_props _ _ _) as [p'|e] eqn:Hset.
    2:{ apply setattr_props_raises in Hset. by rewrite Hset in Hrun. }
    apply setattr_props_Ok in Hset as ->.
    apply (f_equal snd) in Hrun. simpl in Hrun. subst w'. simpl.
    split; [done|]. rewrite bool_decide_eq_true_2 by done. simpl.
    apply lookup_insert_eq.
  - destruct (exn_cls e); try done. split; [done|].
    by apply (f_equal snd) in Hrun.
Qed.

Lemma load_loop self D attr : ∀ w w',
  NoDup attr → "host" ∉ attr →
  (∀ atr, atr ∈ attr → startswith_underscore atr = false) →
  (∀ atr slot, atr ∈ attr →
     class_lookup (w_props w self) atr = Some (MAccessor slot) →
     slot = "_" +:+ atr) →
  (∀ atr var, atr ∈ attr →
     getattr_props (w_props w self) atr = Ok var → alive w var) →
  for_each attr (_load_extension_attr_from_dict_body classes self (DDict D)) w
  = (Ok tt, w') →
  ∀ atr, atr ∈ attr →
    ∃ var, getattr_props (w_props w self) atr = Ok var ∧
      match from_dict_of classes w var, D !! atr with
      | Some (c, f), Some sub =>
          ∃ host, getattr_props (w_props w self) "host" = Ok host ∧
            match f sub host with
            | Ok o' =>
                ∃ a', p_slots (w_props w' self) !! ("_" +:+ atr)
                      = Some (VRef a')
                  ∧ w_exts w' !! a' = Some o'
                  ∧ w_exts w !! a' = None
            | Raise e =>
                exn_cls e = KeyError
                ∧ p_slots (w_props w' self) !! ("_" +:+ atr)
                  = p_slots (w_props w self) !! ("_" +:+ atr)
            end
      | _, _ =>
          p_slots (w_props w' self) !! ("_" +:+ atr)
          = p_slots (w_props w self) !! ("_" +:+ atr)
      end.
Proof.
  induction attr as [|atr0 rest IH];
    intros w w' Hnd Hhost Hpub Hown Halive Hrun.
  { by intros atr ?%elem_of_nil. }
  simpl in Hrun. unfold bind in Hrun.
  destruct (_load_extension_attr_from_dict_body classes self (DDict D) atr0 w)
    as [[[]|e] w1] eqn:Hbody; [|done].
  apply NoDup_cons in Hnd as [Hnin Hnd].
  apply not_elem_of_cons in Hhost as [Hhost0 Hhost].
  pose proof (load_body_installs _ _ _ _ _ _ _ Hbody) as Hstep.
  pose proof (for_each_installs self _
                (load_body_installs classes self (DDict D)) _ _ _ _ Hrun)
    as Htail.
  assert ("host" ∉ [atr0]) as Hhost1.
  { intros Heq%list_elem_of_singleton. congruence. }
  assert (∀ atr, atr ∈ rest →
            getattr_props (w_props w1 self) atr
            = getattr_props (w_props w self) atr) as Hread.
  { intros atr Hin. eapply installs_getattr_own; [done| | |].
    - intros Heq%list_elem_of_singleton. congruence.
    - apply Hpub. by right.
    - intros slot. apply Hown. by right. }
  pose proof (installs_host _ _ _ _ Hstep Hhost1) as Hh.
  assert (∀ atr, atr ∈ rest →
            ∀ var, getattr_props (w_props w self) atr = Ok var →
              from_dict_of classes w1 var = from_dict_of classes w var) as Hcap.
  { intros atr Hin var Hget. eapply installs_from_dict_of; [done|].
    eapply Halive; [by right|done]. }
  intros atr [->|Hin]%elem_of_cons.
  - destruct (load_body_Ok _ _ _ _ _ Hbody) as (var0 & Hget0 & Hround).
    exists var0. split; [done|].
    destruct (from_dict_of classes w var0) as [[c f]|];
      [|subst w1; by rewrite (installs_slot _ _ _ _ _ Htail Hnin)].
    destruct (D !! atr0) as [sub|];
      [|subst w1; by rewrite (installs_slot _ _ _ _ _ Htail Hnin)].
    destruct Hround as (host & Hhost' & Hround).
    exists host. split; [done|].
    destruct (f sub host) as [o'|e].
    + destruct Hround as (Hx & Hslot).
      exists (length (w_exts w)). repeat split.
      * by rewrite (installs_slot _ _ _ _ _ Htail Hnin).
      * rewrite (installs_lookup_ext _ _ _ _ _ Htail), Hx.
        -- by rewrite list_lookup_middle.
        -- rewrite Hx, length_app. simpl. lia.
      * by apply lookup_ge_None.
    + destruct Hround as (Hk & ->). split; [done|].
      by rewrite (installs_slot _ _ _ _ _ Htail Hnin).
  - assert (atr ∉ [atr0]) as Hnin0.
    { intros Heq%list_elem_of_singleton. congruence. }
    assert (∀ atr', atr' ∈ rest → startswith_underscore atr' = false)
      as Hpub1.
    { intros atr' Hin'. apply Hpub. by right. }
    assert (∀ atr' slot, atr' ∈ rest →
              class_lookup (w_props w1 self) atr' = Some (MAccessor slot) →
              slot = "_" +:+ atr') as Hown1.
    { intros atr' slot Hin'.
      rewrite (installs_class_lookup _ _ _ _ atr' Hstep).
      apply Hown. by right. }
    assert (∀ atr' var, atr' ∈ rest →
              getattr_props (w_props w1 self) atr' = Ok var → alive w1 var)
      as Halive1.
    { intros atr' var Hin' Hget. rewrite (Hread atr' Hin') in Hget.
      eapply installs_alive; [done|]. eapply Halive; [by right|done]. }
    destruct (IH w1 w' Hnd Hhost Hpub1 Hown1 Halive1 Hrun atr Hin)
      as (var & Hget & Hatr).
    rewrite (Hread atr Hin) in Hget. exists var. split; [done|].
    rewrite (Hcap atr Hin var Hget) in Hatr.
    destruct (from_dict_of classes w var) as [[c f]|];
      [|by rewrite Hatr, (installs_slot _ _ _ _ _ Hstep Hnin0)].
    destruct (D !! atr) as [sub|];
      [|by rewrite Hatr, (installs_slot _ _ _ _ _ Hstep Hnin0)].
    destruct Hatr as (host & Hhost' & Hatr). rewrite Hh in Hhost'.
    exists host. split; [done|].
    destruct (f sub host) as [o'|e].
    + destruct Hatr as (a' & Hslot & Hx & Hfresh).
      exists a'. repeat split; try done.
      destruct Hstep as (_ & _ & _ & _ & [news Hnews] & _).
      rewrite Hnews in Hfresh. apply lookup_ge_None in Hfresh.
      apply lookup_ge_None. rewrite length_app in Hfresh. lia.
    + destruct Hatr as (Hk & Hslot). split; [done|].
      by rewrite Hslot, (installs_slot _ _ _ _ _ Hstep Hnin0).
Qed.

(** X17: What deserialize-all has done when it returns, on an object whose
    accessors are over their own underscore slot (as extension packages
    install them): for every enumerated name whose value has [from_dict] and
    that is a key of the map, [from_dict] of the value's class was given the
    entry and the host of [self], and what it made is a new object of the
    heap held by the slot ['_' + name], unless it raised a [KeyError], which
    is passed over; for every other enumerated name that slot is as it
    was. *)
Theorem load_effect self D w w' :
  refs_alive w self →
  (∀ atr slot, atr ∈ extension_attr_props (w_props w self) →
     class_lookup (w_props w self) atr = Some (MAccessor slot) →
     slot = "_" +:+ atr) →
  _load_extension_attr_from_dict classes self (DDict D) w = (Ok tt, w') →
  ∀ atr, atr ∈ extension_attr_props (w_props w self) →
    ∃ var, getattr_props (w_props w self) atr = Ok var ∧
      match from_dict_of classes w var, D !! atr with
      | Some (c, f), Some sub =>
          ∃ host, getattr_props (w_props w self) "host" = Ok host ∧
            match f sub host with
            | Ok o' =>
                ∃ a', p_slots (w_props w' self) !! ("_" +:+ atr)
                      = Some (VRef a')
                  ∧ w_exts w' !! a' = Some o'
                  ∧ w_exts w !! a' = None
            | Raise e =>
                exn_cls e = KeyError
                ∧ p_slots (w_props w' self) !! ("_" +:+ atr)
                  = p_slots (w_props w self) !! ("_" +:+ atr)
            end
      | _, _ =>
          p_slots (w_props w' self) !! ("_" +:+ atr)
          = p_slots (w_props w self) !! ("_" +:+ atr)
      end.
Proof.
  intros Halive Hown Hrun. rewrite load_run in Hrun.
  eapply load_loop; try done.
  - apply NoDup_extension_attr_props.
  - apply extension_attr_props_no_host.
  - apply extension_attr_props_public.
  - intros atr var _ Hget. by eapply getattr_alive.
Qed.

End LoadEffect.

(** ** The comprehension, with [self._do_not_duplicate] looked up *)

Lemma existsb_tuple (l : list string) atr :
  existsb (λ x, match x with
                | DStr s => bool_decide (s = atr)
                | _ => false
                end) (DStr <$> l)
  = bool_decide (atr ∈ l).
Proof.
  induction l as [|x l IH]; [done|]. rewrite fmap_cons. cbn [existsb].
  rewrite IH. destruct (decide (x = atr)) as [->|Hne].
  - rewrite bool_decide_eq_true_2 by done.
    symmetry. apply bool_decide_eq_true_2. left.
  - rewrite (bool_decide_eq_false_2 _ Hne). cbn [orb].
    apply bool_decide_ext. rewrite elem_of_cons. naive_solver.
Qed.

Lemma contains_tuple (l : list string) atr :
  contains (DList (DStr <$> l)) atr = Ok (bool_decide (atr ∈ l)).
Proof. unfold contains. by rewrite existsb_tuple. Qed.

Lemma in_do_not_duplicate_as_defined p atr :
  reserved_as_defined p →
  in_do_not_duplicate p atr = Ok (bool_decide (atr ∈ _do_not_duplicate)).
Proof.
  intros Hr. unfold in_do_not_duplicate. rewrite Hr. apply contains_tuple.
Qed.

Lemma comprehension_as_defined p names :
  reserved_as_defined p →
  comprehension p names
  = Ok (filter (λ atr, negb (startswith_underscore atr)
                       && negb (bool_decide (atr ∈ _do_not_duplicate)))
               names).
Proof.
  intros Hr. induction names as [|x l IH]; [done|].
  cbn [comprehension]. rewrite filter_cons, IH.
  destruct (startswith_underscore x); [done|].
  rewrite (in_do_not_duplicate_as_defined _ _ Hr).
  by destruct (bool_decide (x ∈ _do_not_duplicate)).
Qed.

Lemma comprehension_raises p e names :
  (∀ atr, in_do_not_duplicate p atr = Raise e) →
  (∃ x, x ∈ names ∧ startswith_underscore x = false) →
  comprehension p names = Raise e.
Proof.
  intros Hraise. induction names as [|x l IH]; intros (y & Hin & Hy).
  { by apply elem_of_nil in Hin. }
  cbn [comprehension].
  destruct (startswith_underscore x) eqn:Hx; [|by rewrite Hraise].
  apply IH. exists y. split; [|done].
  apply elem_of_cons in Hin as [->|Hin]; [congruence|done].
Qed.

Lemma attached_enumerated p atr :
  reserved_as_defined p → attached p atr → atr ∈ extension_attr_props p.
Proof.
  intros Hr (Hu & Hin & Hat).
  rewrite (in_do_not_duplicate_as_defined _ _ Hr) in Hin.
  apply Ok_inj, bool_decide_eq_false in Hin.
  apply elem_of_extension_attr_props. repeat split; try done.
  apply elem_of_dir_props. tauto.
Qed.

(** [_do_not_duplicate] is a plain attribute of the class: the instance
    dictionary comes first. *)
Lemma class_lookup_reserved p :
  class_lookup p "_do_not_duplicate"
  = Some (MAttr (VData (DList (DStr <$> _do_not_duplicate)))).
Proof.
  unfold class_lookup. rewrite bool_decide_eq_false_2 by done.
  rewrite bool_decide_eq_false_2.
  2:{ destruct (p_variant p); apply (bool_decide_unpack _); vm_compute; exact I. }
  by rewrite bool_decide_eq_true_2.
Qed.

Lemma getattr_props_reserved p :
  getattr_props p "_do_not_duplicate"
  = match p_slots p !! "_do_not_duplicate" with
    | Some v => Ok v
    | None => Ok (VData (DList (DStr <$> _do_not_duplicate)))
    end.
Proof.
  unfold getattr_props, lookup_plain. by rewrite class_lookup_reserved.
Qed.

(** An installation that leaves the slot [_do_not_duplicate] alone leaves
    what [self._do_not_duplicate] reads. *)
Lemma installs_reserved self names w w' :
  installs self names w w' → "do_not_duplicate" ∉ names →
  getattr_props (w_props w' self) "_do_not_duplicate"
  = getattr_props (w_props w self) "_do_not_duplicate".
Proof.
  intros Hi Hnin. rewrite !getattr_props_reserved.
  change "_do_not_duplicate" with ("_" +:+ "do_not_duplicate").
  by rewrite (installs_slot _ _ _ _ _ Hi Hnin).
Qed.

(** ** Serialization: the allow-list *)

Section AllowList.

Variable classes : cid → ext_class.

(** C3: with an empty allow-list serialize-all hands the target map back
    untouched and invokes nothing, so [to_dict] of a variant is its tag
    alone; with the allow-list [[x]], where [x] is attached and has
    [to_dict], it invokes that one [to_dict] and merges its output into the
    target map, and nothing else.  Without allow-list, on an object that
    reads [_do_not_duplicate] as properties.py defines it, a call that
    returns has invoked [to_dict] on every attached extension that has it
    (every public name, not found reserved, that an extension package
    installed on the class or that is an attribute of the instance), each of
    them succeeded and all of their keys are in the returned map; it has
    invoked [to_dict] on the values of public names that are not reserved,
    and nothing else; and the call does return when each [to_dict] it comes
    to succeeds. *)
Theorem allow_list_filtering self base abridged w :
  _add_extension_attr_to_dict classes self base abridged (Some []) w
  = (Ok base, w)
  ∧ (∀ v, to_dict classes v self abridged (Some []) w
          = (Ok {[ "type" := DStr (type_tag v abridged) ]}, w))
  ∧ (∀ x var a r,
       getattr_props (w_props w self) x = Ok var →
       to_dict_of classes w var (Some abridged) = Some (a, r) →
       _add_extension_attr_to_dict classes self base abridged (Some [x]) w
       = (match r with
          | Ok d => Ok (update base d)
          | Raise e =>
              Raise (if is_Exception (exn_cls e)
                     then failed_to_convert classes w var e else e)
          end,
          add_log w [EToDict a (Some abridged)]))
  ∧ (∀ m w',
       reserved_as_defined (w_props w self) →
       _add_extension_attr_to_dict classes self base abridged None w
       = (Ok m, w') →
       (∀ atr var a r,
          attached (w_props w self) atr →
          getattr_props (w_props w self) atr = Ok var →
          to_dict_of classes w var (Some abridged) = Some (a, r) →
          ∃ d, r = Ok d ∧ EToDict a (Some abridged) ∈ w_log w'
               ∧ ∀ k, is_Some (d !! k) → is_Some (m !! k))
       ∧ ∃ evs, w_log w' = w_log w ++ evs
           ∧ ∀ ev, ev ∈ evs →
               ∃ atr var a r,
                 startswith_underscore atr = false
                 ∧ in_do_not_duplicate (w_props w self) atr = Ok false
                 ∧ getattr_props (w_props w self) atr = Ok var
                 ∧ to_dict_of classes w var (Some abridged) = Some (a, r)
                 ∧ ev = EToDict a (Some abridged))
  ∧ (reserved_as_defined (w_props w self) →
     (∀ atr, startswith_underscore atr = false →
        in_do_not_duplicate (w_props w self) atr = Ok false →
        atr ∈ dir_props (w_props w self) →
        ∃ var, getattr_props (w_props w self) atr = Ok var ∧
          ∀ a r, to_dict_of classes w var (Some abridged) = Some (a, r) →
            ∃ d, r = Ok d) →
     ∃ m w', _add_extension_attr_to_dict classes self base abridged None w
             = (Ok m, w')).
Proof.
  split; [|split; [|split; [|split]]].
  - rewrite add_extension_attr_to_dict_run, to_dict_loop_trace. simpl.
    by rewrite add_log_nil.
  - intros v. rewrite to_dict_run, to_dict_loop_trace.
    destruct v; simpl; by rewrite add_log_nil.
  - intros x var a r Hget Hto.
    rewrite add_extension_attr_to_dict_run, to_dict_loop_trace. simpl.
    rewrite Hget, Hto. by destruct r.
  - intros m w' Hres Hrun.
    rewrite add_extension_attr_to_dict_run, to_dict_loop_trace in Hrun.
    simpl in Hrun.
    destruct (to_dict_trace classes w self (extension_attr_props (w_props w self))
                base (Some abridged)) as [res evs] eqn:Htr.
    simpl in Hrun.
    assert (res = Ok m ∧ w' = add_log w evs) as [-> ->] by (by inversion Hrun).
    split.
    + intros atr var a r Hat Hget Hto.
      pose proof (attached_enumerated _ _ Hres Hat) as Hin.
      destruct (to_dict_trace_Ok_all _ _ _ _ _ _ _ _ Htr atr Hin)
        as (var' & Hget' & Hall).
      rewrite Hget in Hget'. apply Ok_inj in Hget' as <-.
      destruct (Hall a r Hto) as (d & -> & Hev). exists d.
      split; [done|]. split.
      { simpl. apply elem_of_app. by right. }
      intros k [x Hk]. apply to_dict_trace_Ok in Htr as ->.
      rewrite foldl_update_lookup.
      destruct (last_value _ k) eqn:Hlast; [done|].
      rewrite last_value_None in Hlast. rewrite Hlast in Hk; [done|].
      apply elem_of_outputs. eauto 10.
    + exists evs. split; [done|]. intros ev Hev.
      assert (ev ∈ snd (to_dict_trace classes w self
                          (extension_attr_props (w_props w self)) base
                          (Some abridged))) as Hev' by by rewrite Htr.
      apply to_dict_trace_events in Hev'
        as (atr & var & a & r & Hin & Hget & Hto & ->).
      apply elem_of_extension_attr_props in Hin as (Hu & Hr & _).
      exists atr, var, a, r. repeat split; try done.
      rewrite (in_do_not_duplicate_as_defined _ _ Hres).
      by rewrite bool_decide_eq_false_2.
  - intros Hres Hall.
    destruct (to_dict_trace_total classes w self
                (extension_attr_props (w_props w self)) base (Some abridged))
      as (m & evs & Htr).
    { intros atr (Hu & Hr & Hin)%elem_of_extension_attr_props.
      apply Hall; try done.
      rewrite (in_do_not_duplicate_as_defined _ _ Hres).
      by rewrite bool_decide_eq_false_2. }
    exists m, (add_log w evs).
    rewrite add_extension_attr_to_dict_run, to_dict_loop_trace. simpl.
    by rewrite Htr.
Qed.

End AllowList.

(** ** deserialize-all: when it returns, and the round trip *)

Section Returns.

Variable classes : cid → ext_class.



(** C9: whatever duplicate-all or deserialize-all changes on [self] is an
    instance slot ["_" + n] of an enumerated name [n], which receives a new
    object, and no slot with a public name changes; so a value in the slot
    ["_" + n] is read back under [n] when [n] is an accessor over that slot,
    whereas a plain public data member [n] of the instance shows the same
    value after the call as before.  And when the call returns, the value
    installed for [n] is in the slot ["_" + n] and nowhere else: for every
    enumerated [n] whose value on the original has [duplicate], the slot
    ["_" + n] of [self] holds a new object, the one [duplicate(self.host)]
    made of that value; for every enumerated [n] whose value on [self] has
    [from_dict] and that the map has an entry for, the slot ["_" + n] holds
    a new object, the one [from_dict] made of the entry and the host; and
    for an enumerated [n] without the capability the slot is as it was. *)
Theorem installed_under_underscore_slot self w r w' :
  (∃ original,
     _duplicate_extension_attr classes self original w = (r, w'))
  ∨ (∃ property_dict,
       _load_extension_attr_from_dict classes self property_dict w = (r, w')) →
  (∀ k, p_slots (w_props w' self) !! k = p_slots (w_props w self) !! k
        ∨ ∃ n a, n ∈ extension_attr_props (w_props w self)
            ∧ k = "_" +:+ n
            ∧ p_slots (w_props w' self) !! k = Some (VRef a)
            ∧ w_exts w !! a = None ∧ is_Some (w_exts w' !! a))
  ∧ (∀ k, startswith_underscore k = false →
          p_slots (w_props w' self) !! k = p_slots (w_props w self) !! k)
  ∧ (∀ n v, class_lookup (w_props w self) n = Some (MAccessor ("_" +:+ n)) →
            p_slots (w_props w' self) !! ("_" +:+ n) = Some v →
            getattr_props (w_props w' self) n = Ok v)
  ∧ (∀ n v, startswith_underscore n = false →
            (∀ slot, class_lookup (w_props w self) n ≠ Some (MAccessor slot)) →
            p_slots (w_props w self) !! n = Some v →
            getattr_props (w_props w self) n = Ok v
            ∧ getattr_props (w_props w' self) n = Ok v)
  ∧ (∀ original,
       self ≠ original → refs_alive w original →
       _duplicate_extension_attr classes self original w = (Ok tt, w') →
       ∀ n, n ∈ extension_attr_props (w_props w self) →
         ∃ var, getattr_props (w_props w original) n = Ok var ∧
           match duplicate_of classes w var with
           | None =>
               p_slots (w_props w' self) !! ("_" +:+ n)
               = p_slots (w_props w self) !! ("_" +:+ n)
           | Some (a, o, f) =>
               ∃ host o' a',
                 getattr_props (w_props w self) "host" = Ok host
                 ∧ f (e_state o) host = Ok o'
                 ∧ p_slots (w_props w' self) !! ("_" +:+ n) = Some (VRef a')
                 ∧ w_exts w' !! a' = Some o'
                 ∧ w_exts w !! a' = None
           end)
  ∧ (∀ D,
       refs_alive w self →
       (∀ n slot, n ∈ extension_attr_props (w_props w self) →
          class_lookup (w_props w self) n = Some (MAccessor slot) →
          slot = "_" +:+ n) →
       _load_extension_attr_from_dict classes self (DDict D) w = (Ok tt, w') →
       ∀ n, n ∈ extension_attr_props (w_props w self) →
         ∃ var, getattr_props (w_props w self) n = Ok var ∧
           match from_dict_of classes w var, D !! n with
           | Some (c, f), Some sub =>
               ∃ host, getattr_props (w_props w self) "host" = Ok host ∧
                 match f sub host with
                 | Ok o' =>
                     ∃ a', p_slots (w_props w' self) !! ("_" +:+ n)
                           = Some (VRef a')
                       ∧ w_exts w' !! a' = Some o'
                       ∧ w_exts w !! a' = None
                 | Raise e =>
                     exn_cls e = KeyError
                     ∧ p_slots (w_props w' self) !! ("_" +:+ n)
                       = p_slots (w_props w self) !! ("_" +:+ n)
                 end
           | _, _ =>
               p_slots (w_props w' self) !! ("_" +:+ n)
               = p_slots (w_props w self) !! ("_" +:+ n)
           end).
Proof.
  intros Hrun.
  destruct (underscore_slot_frame classes self w r w' Hrun)
    as (H1 & H2 & H3 & H4).
  do 4 (split; [done|]). split.
  - intros original Hne Halive Hdup. rewrite duplicate_run in Hdup.
    apply (duplicate_loop classes self original _ w w'); try done.
    + apply NoDup_extension_attr_props.
    + apply extension_attr_props_no_host.
    + intros atr var _ Hget. by eapply getattr_alive.
  - intros D Halive Hown Hload. rewrite load_run in Hload.
    apply (load_loop classes self D _ w w'); try done.
    + apply NoDup_extension_attr_props.
    + apply extension_attr_props_no_host.
    + apply extension_attr_props_public.
    + intros atr var _ Hget. by eapply getattr_alive.
Qed.

End Returns.

(** ** What the enumeration rests on *)

Section Reserved.

Variable classes : cid → ext_class.
Variable appliers : cid → option (addr → data → list ext → outcome unit * list ext).

(** X5: A model dictionary without usable ['properties'] fails the call
    before anything is done: on every object that reads [_do_not_duplicate]
    as properties.py defines it (so that it enumerates its own public
    methods at least), when [data['properties']] raises (no such key, or
    [data] is no dictionary), or when its value is nothing a name can be
    looked for in, the call raises that very exception and the world is as
    it was: the first name of the enumeration is tested already. *)
Theorem apply_needs_properties self d w e :
  reserved_as_defined (w_props w self) →
  subscript d "properties" = Raise e
  ∨ (∃ properties, subscript d "properties" = Ok properties
       ∧ ∀ key, contains properties key = Raise e) →
  apply_properties_from_dict appliers self d w = (Raise e, w).
Proof.
  intros Hres H. unfold apply_properties_from_dict, extension_attr, read.
  unfold bind at 1.
  assert (∃ atr rest, extension_attr_props (w_props w self) = atr :: rest)
    as (atr & rest & ->).
  { apply extension_attr_props_nonempty. }
  simpl. unfold bind. rewrite apply_body_run.
  destruct H as [->|(properties & -> & Hc)]; [done|]. by rewrite Hc.
Qed.

(** X11: Whatever their outcome, duplicate-all and deserialize-all leave
    every object of the heap as it was (the extensions of the original are
    read, never changed; new objects come after them), as well as every
    other properties object and the class of [self].  On an object that
    reads [_do_not_duplicate] as properties.py defines it and has no
    attribute named [do_not_duplicate], they also leave what
    [self._do_not_duplicate] reads, the host of [self] and the names it
    enumerates, which are then the names the comprehension of the code
    yields after the call. *)
Theorem install_preserves self w r w' :
  (∃ original,
     _duplicate_extension_attr classes self original w = (r, w'))
  ∨ (∃ property_dict,
       _load_extension_attr_from_dict classes self property_dict w = (r, w')) →
  (∀ a o, w_exts w !! a = Some o → w_exts w' !! a = Some o)
  ∧ length (w_exts w) ≤ length (w_exts w')
  ∧ (∀ o, o ≠ self → w_props w' o = w_props w o)
  ∧ p_variant (w_props w' self) = p_variant (w_props w self)
  ∧ p_members (w_props w' self) = p_members (w_props w self)
  ∧ (reserved_as_defined (w_props w self) →
     ("do_not_duplicate" ∉ extension_attr_props (w_props w self)) →
     reserved_as_defined (w_props w' self)
     ∧ getattr_props (w_props w' self) "host"
       = getattr_props (w_props w self) "host"
     ∧ extension_attr_props (w_props w' self)
       = extension_attr_props (w_props w self)
     ∧ extension_attr_lookup (w_props w' self)
       = Ok (extension_attr_props (w_props w self))).
Proof.
  intros Hrun.
  assert (installs self (extension_attr_props (w_props w self)) w w') as Hi.
  { destruct Hrun as [[original Hrun]|[pd Hrun]];
      [by eapply duplicate_installs|by eapply load_installs]. }
  pose proof Hi as (Ho & Hv & Hm & _ & (news & Hx) & _).
  split; [|split; [|split; [done|split; [done|split; [done|]]]]].
  - intros a o Ha. rewrite Hx. by apply lookup_app_l_Some.
  - rewrite Hx, length_app. lia.
  - intros Hres Hnot.
    assert (reserved_as_defined (w_props w' self)) as Hres'.
    { unfold reserved_as_defined. by rewrite (installs_reserved _ _ _ _ Hi Hnot). }
    pose proof (installs_extension_attr_props _ _ _ _ Hi) as Henum.
    repeat split; try done.
    + eapply installs_host; [done|]. apply extension_attr_props_no_host.
    + unfold extension_attr_lookup.
      rewrite (comprehension_as_defined _ _ Hres'). by rewrite <- Henum.
Qed.

(** X14: what the enumeration rests on.  The operations enumerate with the
    tuple of properties.py; the comprehension of the code reads
    [self._do_not_duplicate].  As long as that reads as the tuple, the
    comprehension yields the names of [extension_attr_props], the own public
    methods of the object among them, so at least one.  When it reads as
    something that is no plain data (an object, a bound method), the
    comprehension raises a [TypeError], for every object.  And duplicate-all
    brings this about by itself: when it returns on an object that has an
    extension under the name [do_not_duplicate] whose value on the original
    has [duplicate], the duplicate is in the slot [_do_not_duplicate] of
    [self], and the comprehension raises on [self] from then on. *)
Theorem enumeration_reads_reserved_names p :
  (reserved_as_defined p →
   extension_attr_lookup p = Ok (extension_attr_props p)
   ∧ ∃ atr rest, extension_attr_props p = atr :: rest)
  ∧ (p_slots p !! "_do_not_duplicate" = None → reserved_as_defined p)
  ∧ (∀ v, getattr_props p "_do_not_duplicate" = Ok v →
          (∀ d, v ≠ VData d) →
          ∃ e, extension_attr_lookup p = Raise e ∧ exn_cls e = TypeError)
  ∧ (∀ self original w w' var a o f,
       self ≠ original → refs_alive w original →
       _duplicate_extension_attr classes self original w = (Ok tt, w') →
       "do_not_duplicate" ∈ extension_attr_props (w_props w self) →
       getattr_props (w_props w original) "do_not_duplicate" = Ok var →
       duplicate_of classes w var = Some (a, o, f) →
       (∃ a', getattr_props (w_props w' self) "_do_not_duplicate"
              = Ok (VRef a')
              ∧ w_exts w !! a' = None ∧ is_Some (w_exts w' !! a'))
       ∧ ∃ e, extension_attr_lookup (w_props w' self) = Raise e
              ∧ exn_cls e = TypeError).
Proof.
  assert (∀ q v, getattr_props q "_do_not_duplicate" = Ok v →
            (∀ d, v ≠ VData d) →
            ∃ e, extension_attr_lookup q = Raise e ∧ exn_cls e = TypeError)
    as Hraise.
  { intros q v Hv Hnd.
    assert (∃ e, (∀ atr, in_do_not_duplicate q atr = Raise e)
                 ∧ exn_cls e = TypeError) as (e & He & Hcls).
    { unfold in_do_not_duplicate. rewrite Hv.
      destruct v as [d|a|n]; [by destruct (Hnd d)| |]; by eexists. }
    exists e. split; [|done]. apply comprehension_raises; [done|].
    exists "host". split; [|done]. apply elem_of_dir_props. left. left. }
  split; [|split; [|split]].
  - intros Hres. split.
    + by apply comprehension_as_defined.
    + apply extension_attr_props_nonempty.
  - intros Hs. unfold reserved_as_defined.
    by rewrite getattr_props_reserved, Hs.
  - apply Hraise.
  - intros self original w w' var a o f Hne Halive Hrun Hin Hget Hcap.
    rewrite duplicate_run in Hrun.
    destruct (duplicate_loop classes self original
                (extension_attr_props (w_props w self)) w w' Hne
                (NoDup_extension_attr_props _)
                (extension_attr_props_no_host _)) as (_ & Hall); [|done|].
    { intros atr v _ Hv. by eapply getattr_alive. }
    destruct (Hall _ Hin) as (var' & Hget' & Heff).
    rewrite Hget in Hget'. apply Ok_inj in Hget' as <-.
    rewrite Hcap in Heff.
    destruct Heff as (host & o' & a' & _ & _ & Hslot & Ho' & Hfresh).
    assert (getattr_props (w_props w' self) "_do_not_duplicate"
            = Ok (VRef a')) as Hread.
    { rewrite getattr_props_reserved.
      change "_do_not_duplicate" with ("_" +:+ "do_not_duplicate").
      by rewrite Hslot. }
    split.
    + exists a'. by rewrite Ho'.
    + eapply Hraise; [done|]. intros d Hd. discriminate Hd.
Qed.

End Reserved.

Import Examples.

(** ** The theorems at work on the concrete worlds *)

Lemma duplicate_reads_original_witness :
  let w := world_of room_b room_a in
  let w' := snd (_duplicate_extension_attr classes 0 1 w) in
  (0 ≠ 1 ∧ refs_alive w 1
   ∧ _duplicate_extension_attr classes 0 1 w = (Ok tt, w'))
  ∧ w_log w' = w_log w ++ duplicate_events classes w 0 1
                            (extension_attr_props (w_props w 0)).
Proof.
  intros w w'.
  assert (0 ≠ 1) as H1 by lia.
  assert (refs_alive w 1) as H2 by (vm_compute; exact I).
  assert (_duplicate_extension_attr classes 0 1 w = (Ok tt, w')) as H3
    by (vm_compute; reflexivity).
  split; [split; [exact H1|split; [exact H2|exact H3]]|].
  exact (proj1 (duplicate_reads_original classes 0 1 w w' H1 H2 H3)).
Defined.


Lemma type_tag_unless_overwritten_witness :
  let w := world_of room_a room_a in
  let run := to_dict classes Room 0 true None w in
  let m : dict :=
    {[ "type" := DStr "RoomPropertiesAbridged"; "energy" := energy_state ]} in
  (run = (Ok m, snd run)
   ∧ ∀ d : dict,
       d ∈ outputs classes w 0 (to_dict_names Room w 0 None)
             (to_dict_arg Room true) →
       d !! "type" = None)
  ∧ m !! "type" = Some (DStr (type_tag Room true)).
Proof.
  intros w run m.
  assert (run = (Ok m, snd run)) as H1 by (vm_compute; reflexivity).
  assert (∀ d : dict,
            d ∈ outputs classes w 0 (to_dict_names Room w 0 None)
                  (to_dict_arg Room true) →
            d !! "type" = None) as H2.
  { intros d Hd.
    assert (outputs classes w 0 (to_dict_names Room w 0 None)
              (to_dict_arg Room true) = [ {[ "energy" := energy_state ]} ])
      as Hout by (vm_compute; reflexivity).
    rewrite Hout in Hd. apply list_elem_of_singleton in Hd. rewrite Hd.
    vm_compute. reflexivity. }
  split; [split; [exact H1|exact H2]|].
  exact (proj1 (type_tag_unless_overwritten classes Room 0 true None w m
                  (snd run) H1 H2)).
Defined.

Lemma add_prefix_isolation_witness :
  let w := world_of room_broken room_a in
  let run := _add_prefix_extension_attr classes 0 "p_" w in
  run = (fst run, snd run)
  ∧ w_props (snd run) = w_props w
  ∧ ∀ a o, w_exts w !! a = Some o →
      c_add_prefix (classes (e_class o)) = None →
      w_exts (snd run) !! a = Some o.
Proof.
  intros w run.
  assert (run = (fst run, snd run)) as H1 by apply surjective_pairing.
  split; [exact H1|].
  destruct (add_prefix_isolation classes 0 "p_" w (fst run) (snd run) H1)
    as (Hp & Hf & _).
  split; [exact Hp|exact Hf].
Defined.

Lemma to_dict_last_writer_wins_witness :
  let w := world_of room_tagging room_a in
  let base : dict := {[ "type" := DStr "RoomPropertiesAbridged" ]} in
  let run := _add_extension_attr_to_dict classes 0 base true None w in
  let ds := outputs classes w 0 (selected w 0 None) (Some true) in
  let m : dict := {[ "type" := DStr "Hijacked"; "energy" := energy_state ]} in
  (run = (Ok m, snd run) ∧ last_value ds "type" = Some (DStr "Hijacked"))
  ∧ m !! "type" = match last_value ds "type" with
                  | Some x => Some x
                  | None => base !! "type"
                  end.
Proof.
  intros w base run ds m.
  assert (run = (Ok m, snd run)) as H1 by (vm_compute; reflexivity).
  assert (last_value ds "type" = Some (DStr "Hijacked")) as H2
    by (vm_compute; reflexivity).
  split; [split; [exact H1|exact H2]|].
  exact (proj2 (to_dict_last_writer_wins classes 0 base true None w m (snd run)
                  ds (or_introl (conj H1 eq_refl))) "type").
Defined.

Lemma allow_list_filtering_witness :
  let w := world_of room_broken room_a in
  let w2 := world_of room_a room_a in
  let run := _add_extension_attr_to_dict classes 0 ∅ false None w2 in
  let m : dict := {[ "energy" := energy_state ]} in
  (_add_extension_attr_to_dict classes 0 ∅ false (Some []) w = (Ok ∅, w)
   ∧ getattr_props (w_props w 0) "energy" = Ok (VRef 1)
   ∧ to_dict_of classes w (VRef 1) (Some false)
     = Some (1, Ok {[ "energy" := energy_state ]})
   ∧ _add_extension_attr_to_dict classes 0 ∅ false (Some ["energy"]) w
     = (Ok (update ∅ {[ "energy" := energy_state ]}),
        add_log w [EToDict 1 (Some false)]))
  ∧ (reserved_as_defined (w_props w2 0)
     ∧ run = (Ok m, snd run)
     ∧ attached (w_props w2 0) "energy"
     ∧ getattr_props (w_props w2 0) "energy" = Ok (VRef 1)
     ∧ to_dict_of classes w2 (VRef 1) (Some false) = Some (1, Ok m))
  ∧ ∃ d, Ok m = Ok d ∧ EToDict 1 (Some false) ∈ w_log (snd run)
         ∧ ∀ k, is_Some (d !! k) → is_Some (m !! k).
Proof.
  intros w w2 run m.
  destruct (allow_list_filtering classes 0 ∅ false w) as (Hnil & _ & Hone & _).
  assert (getattr_props (w_props w 0) "energy" = Ok (VRef 1)) as Hget
    by (vm_compute; reflexivity).
  assert (to_dict_of classes w (VRef 1) (Some false)
          = Some (1, Ok {[ "energy" := energy_state ]})) as Hto
    by (vm_compute; reflexivity).
  split.
  { split; [exact Hnil|]. split; [exact Hget|]. split; [exact Hto|].
    exact (Hone "energy" (VRef 1) 1 _ Hget Hto). }
  destruct (allow_list_filtering classes 0 ∅ false w2)
    as (_ & _ & _ & Hall & _).
  assert (reserved_as_defined (w_props w2 0)) as H1
    by (vm_compute; reflexivity).
  assert (run = (Ok m, snd run)) as H2 by (vm_compute; reflexivity).
  assert (attached (w_props w2 0) "energy") as H3.
  { split; [vm_compute; reflexivity|]. split; [vm_compute; reflexivity|].
    left. vm_compute. eexists. reflexivity. }
  assert (getattr_props (w_props w2 0) "energy" = Ok (VRef 1)) as H4
    by (vm_compute; reflexivity).
  assert (to_dict_of classes w2 (VRef 1) (Some false) = Some (1, Ok m)) as H5
    by (vm_compute; reflexivity).
  split; [split; [exact H1|split; [exact H2|split; [exact H3|
          split; [exact H4|exact H5]]]]|].
  exact (proj1 (Hall m (snd run) H1 H2) "energy" (VRef 1) 1 (Ok m) H3 H4 H5).
Defined.

Lemma installed_under_underscore_slot_witness :
  let w := world_of room_b room_a in
  let w' := snd (_duplicate_extension_attr classes 0 1 w) in
  let v := world_of room_a room_a in
  let D : dict := {[ "energy" := energy_state ]} in
  let v' := snd (_load_extension_attr_from_dict classes 0 (DDict D) v) in
  ((∃ original, _duplicate_extension_attr classes 0 original w = (Ok tt, w'))
   ∧ 0 ≠ 1 ∧ refs_alive w 1
   ∧ _duplicate_extension_attr classes 0 1 w = (Ok tt, w')
   ∧ "energy" ∈ extension_attr_props (w_props w 0))
  ∧ (∃ var, getattr_props (w_props w 1) "energy" = Ok var ∧
       match duplicate_of classes w var with
       | None =>
           p_slots (w_props w' 0) !! ("_" +:+ "energy")
           = p_slots (w_props w 0) !! ("_" +:+ "energy")
       | Some (a, o, f) =>
           ∃ host o' a',
             getattr_props (w_props w 0) "host" = Ok host
             ∧ f (e_state o) host = Ok o'
             ∧ p_slots (w_props w' 0) !! ("_" +:+ "energy") = Some (VRef a')
             ∧ w_exts w' !! a' = Some o'
             ∧ w_exts w !! a' = None
       end)
  ∧ ((∃ property_dict,
        _load_extension_attr_from_dict classes 0 property_dict v = (Ok tt, v'))
     ∧ refs_alive v 0
     ∧ (∀ n slot, n ∈ extension_attr_props (w_props v 0) →
          class_lookup (w_props v 0) n = Some (MAccessor slot) →
          slot = "_" +:+ n)
     ∧ _load_extension_attr_from_dict classes 0 (DDict D) v = (Ok tt, v')
     ∧ "energy" ∈ extension_attr_props (w_props v 0))
  ∧ ∃ var, getattr_props (w_props v 0) "energy" = Ok var ∧
      match from_dict_of classes v var, D !! "energy" with
      | Some (c, f), Some sub =>
          ∃ host, getattr_props (w_props v 0) "host" = Ok host ∧
            match f sub host with
            | Ok o' =>
                ∃ a', p_slots (w_props v' 0) !! ("_" +:+ "energy")
                      = Some (VRef a')
                  ∧ w_exts v' !! a' = Some o'
                  ∧ w_exts v !! a' = None
            | Raise e =>
                exn_cls e = KeyError
                ∧ p_slots (w_props v' 0) !! ("_" +:+ "energy")
                  = p_slots (w_props v 0) !! ("_" +:+ "energy")
            end
      | _, _ =>
          p_slots (w_props v' 0) !! ("_" +:+ "energy")
          = p_slots (w_props v 0) !! ("_" +:+ "energy")
      end.
Proof.
  intros w w' v D v'.
  assert (_duplicate_extension_attr classes 0 1 w = (Ok tt, w')) as H3
    by (vm_compute; reflexivity).
  assert (∃ original,
            _duplicate_extension_attr classes 0 original w = (Ok tt, w'))
    as H0 by (exists 1; exact H3).
  assert (0 ≠ 1) as H1 by lia.
  assert (refs_alive w 1) as H2 by (vm_compute; exact I).
  assert (extension_attr_props (w_props w 0)
          = ["add_prefix"; "energy"; "reset_to_default"]) as Henum
    by (vm_compute; reflexivity).
  assert ("energy" ∈ extension_attr_props (w_props w 0)) as H4.
  { rewrite Henum. apply elem_of_cons. right. apply elem_of_cons. by left. }
  split; [split; [exact H0|split; [exact H1|split; [exact H2|
          split; [exact H3|exact H4]]]]|].
  destruct (installed_under_underscore_slot classes 0 w (Ok tt) w'
              (or_introl H0)) as (_ & _ & _ & _ & Hdup & _).
  split; [exact (Hdup 1 H1 H2 H3 "energy" H4)|].
  assert (_load_extension_attr_from_dict classes 0 (DDict D) v = (Ok tt, v'))
    as L3 by (vm_compute; reflexivity).
  assert (∃ property_dict,
            _load_extension_attr_from_dict classes 0 property_dict v
            = (Ok tt, v')) as L0 by (exists (DDict D); exact L3).
  assert (refs_alive v 0) as L1 by (vm_compute; exact I).
  assert (extension_attr_props (w_props v 0)
          = ["add_prefix"; "energy"; "reset_to_default"]) as Lenum
    by (vm_compute; reflexivity).
  assert (∀ n slot, n ∈ extension_attr_props (w_props v 0) →
            class_lookup (w_props v 0) n = Some (MAccessor slot) →
            slot = "_" +:+ n) as L2.
  { intros n slot Hin Hc. rewrite Lenum in Hin.
    repeat (apply elem_of_cons in Hin as [->|Hin];
            [vm_compute in Hc;
             first [discriminate Hc|injection Hc as <-; reflexivity]|]).
    apply elem_of_nil in Hin. destruct Hin. }
  assert ("energy" ∈ extension_attr_props (w_props v 0)) as L4.
  { rewrite Lenum. apply elem_of_cons. right. apply elem_of_cons. by left. }
  split; [split; [exact L0|split; [exact L1|split; [exact L2|
          split; [exact L3|exact L4]]]]|].
  destruct (installed_under_underscore_slot classes 0 v (Ok tt) v'
              (or_intror L0)) as (_ & _ & _ & _ & _ & Hload).
  exact (Hload D L1 L2 L3 "energy" L4).
Defined.


(** ** Where the code departs from the letter of the specification *)

(** C1: [energy] is a plain attribute of the two instances.  duplicate-all
    duplicates the value of the original (object 1) into the new object 6
    and stores it on [self] in the slot [_energy]: what [self] has under the
    name [energy] is still its former object 3, not the duplicate. *)
Lemma duplicate_plain_member_counterexample :
  let w := world_of plain_b plain_a in
  let run := _duplicate_extension_attr classes 0 1 w in
  extension_attr_props (w_props w 0)
  = ["add_prefix"; "energy"; "reset_to_default"]
  ∧ getattr_props (w_props w 1) "energy" = Ok (VRef 1)
  ∧ hasattr_in classes w (VRef 1) "duplicate" = true
  ∧ fst run = Ok tt
  ∧ w_log (snd run) = [EDuplicate 1 (VRef 2)]
  ∧ w_exts (snd run) !! 6 = Some (Ext 0 energy_state)
  ∧ p_slots (w_props (snd run) 0) !! "_energy" = Some (VRef 6)
  ∧ p_slots (w_props (snd run) 0) !! "energy" = Some (VRef 3)
  ∧ getattr_props (w_props (snd run) 0) "energy" = Ok (VRef 3)
  ∧ VRef 3 ≠ VRef 6.
Proof.
  intros w run.
  do 9 (split; [vm_compute; reflexivity|]).
  discriminate.
Qed.



(** C7: the extension attached under [tagging] hands back a map with a
    ["type"] key of its own, ["Hijacked"]: that is the ["type"] of the map
    [RoomProperties.to_dict] returns, and of the one
    [ModelProperties.to_dict] returns. *)
Lemma type_tag_overwritten_counterexample :
  let room := to_dict classes Room 0 false None (world_of room_tagging room_a) in
  let model := to_dict classes Model 0 false None (world_of model_tagging room_a) in
  let m : dict := {[ "type" := DStr "Hijacked"; "energy" := energy_state ]} in
  let m' : dict := {[ "type" := DStr "Hijacked" ]} in
  fst room = Ok m ∧ m !! "type" = Some (DStr "Hijacked")
  ∧ fst model = Ok m' ∧ m' !! "type" = Some (DStr "Hijacked")
  ∧ "Hijacked" ≠ type_tag Room false ∧ "Hijacked" ≠ type_tag Model false.
Proof.
  intros room model m m'.
  do 4 (split; [vm_compute; reflexivity|]).
  split; discriminate.
Qed.

(** ** The further theorems at work on the concrete worlds *)

Lemma reset_isolation_witness :
  let w := world_of room_a room_a in
  let run := _reset_extension_attr_to_default classes 0 w in
  run = (fst run, snd run)
  ∧ w_props (snd run) = w_props w
  ∧ ∀ b, ¬ reset_target classes w 0 b →
         w_exts (snd run) !! b = w_exts w !! b.
Proof.
  intros w run.
  assert (run = (fst run, snd run)) as H1 by apply surjective_pairing.
  split; [exact H1|].
  destruct (reset_isolation classes 0 w (fst run) (snd run) H1)
    as (Hp & _ & Hx & _).
  split; [exact Hp|exact Hx].
Defined.

Lemma reset_twice_witness :
  let w := world_of room_c room_a in
  let w1 := snd (_reset_extension_attr_to_default classes 0 w) in
  (resets_idempotent classes
   ∧ _reset_extension_attr_to_default classes 0 w = (Ok tt, w1))
  ∧ ∃ w2, _reset_extension_attr_to_default classes 0 w1 = (Ok tt, w2)
          ∧ w_props w2 = w_props w1 ∧ w_exts w2 = w_exts w1.
Proof.
  intros w w1.
  assert (resets_idempotent classes) as H1.
  { intros c f s s' Hc Hf.
    destruct c as [|[|[|c]]]; cbn in Hc; try discriminate Hc.
    apply Some_inj in Hc. subst f. exact Hf. }
  assert (_reset_extension_attr_to_default classes 0 w = (Ok tt, w1)) as H2
    by (vm_compute; reflexivity).
  split; [split; [exact H1|exact H2]|].
  exact (reset_twice classes 0 w w1 H1 H2).
Defined.

Lemma add_prefix_effect_witness :
  let w := world_of room_a room_a in
  let w' := snd (_add_prefix_extension_attr classes 0 "P_" w) in
  (_add_prefix_extension_attr classes 0 "P_" w = (Ok tt, w')
   ∧ NoDup (add_prefix_targets classes w 0
              (extension_attr_props (w_props w 0))))
  ∧ w_props w' = w_props w.
Proof.
  intros w w'.
  assert (_add_prefix_extension_attr classes 0 "P_" w = (Ok tt, w')) as H1
    by (vm_compute; reflexivity).
  assert (NoDup (add_prefix_targets classes w 0
                   (extension_attr_props (w_props w 0)))) as H2.
  { assert (add_prefix_targets classes w 0
              (extension_attr_props (w_props w 0)) = [1]) as ->
      by (vm_compute; reflexivity).
    apply NoDup_singleton. }
  split; [split; [exact H1|exact H2]|].
  exact (proj1 (add_prefix_effect classes 0 "P_" w w' H1 H2)).
Defined.




Lemma load_ignores_other_keys_witness :
  let w := world_of room_a room_a in
  let D : dict := {[ "energy" := energy_state; "comment" := DStr "draft" ]} in
  let D' : dict := {[ "energy" := energy_state ]} in
  (∀ atr, atr ∈ extension_attr_props (w_props w 0) → D !! atr = D' !! atr)
  ∧ _load_extension_attr_from_dict classes 0 (DDict D) w
    = _load_extension_attr_from_dict classes 0 (DDict D') w.
Proof.
  intros w D D'.
  assert (∀ atr, atr ∈ extension_attr_props (w_props w 0) →
                 D !! atr = D' !! atr) as H1.
  { intros atr Hin.
    assert (extension_attr_props (w_props w 0)
            = ["add_prefix"; "energy"; "reset_to_default"]) as Henum
      by (vm_compute; reflexivity).
    rewrite Henum in Hin.
    repeat (apply elem_of_cons in Hin as [->|Hin];
            [vm_compute; reflexivity|]).
    apply elem_of_nil in Hin. destruct Hin. }
  split; [exact H1|].
  exact (load_ignores_other_keys classes 0 D D' w H1).
Defined.



Lemma install_preserves_witness :
  let w := world_of room_b room_a in
  let run := _duplicate_extension_attr classes 0 1 w in
  (∃ original,
     _duplicate_extension_attr classes 0 original w = (fst run, snd run))
  ∧ ∀ a o, w_exts w !! a = Some o → w_exts (snd run) !! a = Some o.
Proof.
  intros w run.
  assert (∃ original,
            _duplicate_extension_attr classes 0 original w = (fst run, snd run))
    as H1 by (exists 1; apply surjective_pairing).
  split; [exact H1|].
  exact (proj1 (install_preserves classes 0 w (fst run) (snd run)
                  (or_introl H1))).
Defined.



Lemma ModelProperties_to_dict_filter_harmless_witness :
  let w := world_of model_tagging model_bare in
  (p_slots (w_props w 0) !! "to_dict" = None
   ∧ p_slots (w_props w 0) !! "ToString" = None)
  ∧ ModelProperties_to_dict classes 0 None w
    = ModelProperties_to_dict classes 0
        (Some (extension_attr_props (w_props w 0))) w.
Proof.
  intros w.
  assert (p_slots (w_props w 0) !! "to_dict" = None) as H1
    by (vm_compute; reflexivity).
  assert (p_slots (w_props w 0) !! "ToString" = None) as H2
    by (vm_compute; reflexivity).
  split; [split; [exact H1|exact H2]|].
  exact (ModelProperties_to_dict_filter_harmless classes 0 w H1 H2).
Defined.

Lemma load_effect_witness :
  let w := world_of room_a room_a in
  let D : dict := {[ "energy" := energy_state ]} in
  let w' := snd (_load_extension_attr_from_dict classes 0 (DDict D) w) in
  (refs_alive w 0
   ∧ (∀ atr slot, atr ∈ extension_attr_props (w_props w 0) →
        class_lookup (w_props w 0) atr = Some (MAccessor slot) →
        slot = "_" +:+ atr)
   ∧ _load_extension_attr_from_dict classes 0 (DDict D) w = (Ok tt, w')
   ∧ "energy" ∈ extension_attr_props (w_props w 0))
  ∧ ∃ var, getattr_props (w_props w 0) "energy" = Ok var ∧
      match from_dict_of classes w var, D !! "energy" with
      | Some (c, f), Some sub =>
          ∃ host, getattr_props (w_props w 0) "host" = Ok host ∧
            match f sub host with
            | Ok o' =>
                ∃ a', p_slots (w_props w' 0) !! ("_" +:+ "energy")
                      = Some (VRef a')
                  ∧ w_exts w' !! a' = Some o'
                  ∧ w_exts w !! a' = None
            | Raise e =>
                exn_cls e = KeyError
                ∧ p_slots (w_props w' 0) !! ("_" +:+ "energy")
                  = p_slots (w_props w 0) !! ("_" +:+ "energy")
            end
      | _, _ =>
          p_slots (w_props w' 0) !! ("_" +:+ "energy")
          = p_slots (w_props w 0) !! ("_" +:+ "energy")
      end.
Proof.
  intros w D w'.
  assert (extension_attr_props (w_props w 0)
          = ["add_prefix"; "energy"; "reset_to_default"]) as Henum
    by (vm_compute; reflexivity).
  assert (refs_alive w 0) as H1 by (vm_compute; exact I).
  assert (∀ atr slot, atr ∈ extension_attr_props (w_props w 0) →
            class_lookup (w_props w 0) atr = Some (MAccessor slot) →
            slot = "_" +:+ atr) as H2.
  { intros atr slot Hin Hc. rewrite Henum in Hin.
    repeat (apply elem_of_cons in Hin as [->|Hin];
            [vm_compute in Hc;
             first [discriminate Hc|injection Hc as <-; reflexivity]|]).
    apply elem_of_nil in Hin. destruct Hin. }
  assert (_load_extension_attr_from_dict classes 0 (DDict D) w = (Ok tt, w'))
    as H3 by (vm_compute; reflexivity).
  assert ("energy" ∈ extension_attr_props (w_props w 0)) as H4.
  { rewrite Henum. apply elem_of_cons. right. apply elem_of_cons. by left. }
  split; [split; [exact H1|split; [exact H2|split; [exact H3|exact H4]]]|].
  exact (load_effect classes 0 D w w' H1 H2 H3 "energy" H4).
Defined.

Lemma apply_needs_properties_witness :
  let w := world_of model_bare model_bare in
  let e := Exn KeyError "'properties'" in
  (reserved_as_defined (w_props w 0)
   ∧ (subscript (DDict ∅) "properties" = Raise e
      ∨ (∃ properties, subscript (DDict ∅) "properties" = Ok properties
           ∧ ∀ key, contains properties key = Raise e)))
  ∧ apply_properties_from_dict MoreExamples.appliers 0 (DDict ∅) w
    = (Raise e, w).
Proof.
  intros w e.
  assert (reserved_as_defined (w_props w 0)) as H0
    by (vm_compute; reflexivity).
  assert (subscript (DDict ∅) "properties" = Raise e
          ∨ (∃ properties, subscript (DDict ∅) "properties" = Ok properties
               ∧ ∀ key, contains properties key = Raise e)) as H1
    by (left; vm_compute; reflexivity).
  split; [split; [exact H0|exact H1]|].
  exact (apply_needs_properties MoreExamples.appliers 0 (DDict ∅) w e H0 H1).
Defined.

Lemma enumeration_reads_reserved_names_witness :
  let w := world_of MoreExamples.room_odd_fresh MoreExamples.room_odd in
  let w' := snd (_duplicate_extension_attr classes 0 1 w) in
  (reserved_as_defined (w_props w 0)
   ∧ 0 ≠ 1 ∧ refs_alive w 1
   ∧ _duplicate_extension_attr classes 0 1 w = (Ok tt, w')
   ∧ "do_not_duplicate" ∈ extension_attr_props (w_props w 0)
   ∧ getattr_props (w_props w 1) "do_not_duplicate" = Ok (VRef 1)
   ∧ duplicate_of classes w (VRef 1)
     = Some (1, Ext 0 energy_state, λ s _, Ok (Ext 0 s)))
  ∧ extension_attr_lookup (w_props w 0)
    = Ok ["add_prefix"; "do_not_duplicate"; "reset_to_default"]
  ∧ (∃ a', getattr_props (w_props w' 0) "_do_not_duplicate" = Ok (VRef a')
           ∧ w_exts w !! a' = None ∧ is_Some (w_exts w' !! a'))
  ∧ ∃ e, extension_attr_lookup (w_props w' 0) = Raise e
         ∧ exn_cls e = TypeError.
Proof.
  intros w w'.
  assert (reserved_as_defined (w_props w 0)) as H0
    by (vm_compute; reflexivity).
  assert (0 ≠ 1) as H1 by lia.
  assert (refs_alive w 1) as H2 by (vm_compute; exact I).
  assert (_duplicate_extension_attr classes 0 1 w = (Ok tt, w')) as H3
    by (vm_compute; reflexivity).
  assert (extension_attr_props (w_props w 0)
          = ["add_prefix"; "do_not_duplicate"; "reset_to_default"]) as Henum
    by (vm_compute; reflexivity).
  assert ("do_not_duplicate" ∈ extension_attr_props (w_props w 0)) as H4.
  { rewrite Henum. apply elem_of_cons. right. apply elem_of_cons. by left. }
  assert (getattr_props (w_props w 1) "do_not_duplicate" = Ok (VRef 1)) as H5
    by (vm_compute; reflexivity).
  assert (duplicate_of classes w (VRef 1)
          = Some (1, Ext 0 energy_state, λ s _, Ok (Ext 0 s))) as H6
    by (vm_compute; reflexivity).
  split; [split; [exact H0|split; [exact H1|split; [exact H2|split; [exact H3|
          split; [exact H4|split; [exact H5|exact H6]]]]]]|].
  destruct (enumeration_reads_reserved_names classes (w_props w 0))
    as (Hdef & _ & _ & Hdup).
  split.
  { rewrite <- Henum. exact (proj1 (Hdef H0)). }
  exact (Hdup 0 1 w w' (VRef 1) 1 (Ext 0 energy_state) _ H1 H2 H3 H4 H5 H6).
Defined.
